(** * Drug-interaction contrast workflow: [InteractionService.get_interactions]

    A shallow embedding of [domain/services/interaction_service.py] and the
    properties of its resolution → indexing → pairing → filtering →
    assembly → pagination pipeline.

    Conventions of the embedding.
    - Python [str] is [string]; an [Optional[str]] attribute is
      [option string]; Python [int] is [Z].
    - A [dict] used for lookups is a [gmap].  [subs_to_items] is only read
      through [.get] and through [sorted(.keys())], so its insertion order
      is not observable and a [gmap] models it as well.
    - The request's entries are mutated in place by the name resolver and
      by the enricher.  Every entry is its own object (the payload is
      parsed from the request body), so in-place mutation of a list of
      entries is the list of the mutated entries.
    - Each store call is a total function: a request on which a store call
      raises is outside the model.
    - [uuid.uuid4()] is an external generator: [uuid4 k] is the value of
      its [k]-th draw within the request, and the number of draws made so
      far is threaded through the assembly loop. *)

From Stdlib Require Import ZArith Lia.
From stdpp Require Import base option strings list gmap sorting pretty.

Local Open Scope Z_scope.

(** ** Data model *)

(** Modelled from the spec: [domain.models.DrugItem] is imported by the
    service but declared elsewhere.  The service reads and writes the
    attributes [name], [subs_code] and [tpu_code]; the remaining
    attributes are the hierarchy codes and names filled in by enrichment. *)
Record DrugItem := mkDrugItem {
  name : option string;
  subs_code : option string;
  tpu_code : option string;
  hierarchy : list (string * string)
}.

(** The assignment [it.subs_code = v]. *)
Definition set_subs_code (v : string) (it : DrugItem) : DrugItem :=
  {| name := name it; subs_code := Some v;
     tpu_code := tpu_code it; hierarchy := hierarchy it |}.

(** [DrugPayload]: the two entry lists of a request. *)
Record DrugPayload := mkDrugPayload {
  drug_currents : list DrugItem;
  drug_histories : list DrugItem
}.

(** A value of [detail_map]: the service only reads [entry.get("subs_codes")];
    a missing key and an empty list are both falsy and both are [[]] here. *)
Record DetailRecord := mkDetailRecord {
  subs_codes : list string;
  detail_info : list (string * string)
}.

(** A raw contrast record as returned by [fetch_contrasts], with the keys
    the service reads. *)
Record InteractionRecord := mkInteractionRecord {
  sub1_id : string;
  sub2_id : string;
  sub1_name : string;
  sub2_name : string;
  rec_interaction_detail_en : string;
  rec_interaction_detail_th : string;
  rec_onset : string;
  rec_severity : string;
  rec_documentation : string;
  rec_significance : string;
  rec_management : string;
  rec_discussion : string;
  rec_reference : string
}.

(** The dictionaries [{"code": ..., "name": ...}] of the display lists. *)
Record SubstanceRef := mkSubstanceRef {
  sub_code : string;
  sub_name : string
}.

(** The keyword arguments produced by [fill_codes]. *)
Definition Fields : Type := list (string * option string).

Inductive Role := RoleInput | RoleContrast.

Record ContrastItem := mkContrastItem {
  ref_id : string;
  input_fields : Fields;
  contrast_fields : Fields;
  contrast_type : Z;
  interaction_detail_en : string;
  interaction_detail_th : string;
  onset : string;
  severity : string;
  documentation : string;
  significance : string;
  management : string;
  discussion : string;
  reference : string;
  input_substances : list SubstanceRef;
  contrast_substances : list SubstanceRef
}.

Record Pagination := mkPagination {
  page : Z;
  row : Z;
  total : Z
}.

Record PageResponse := mkPageResponse {
  pagination : Pagination;
  data : list ContrastItem
}.

Record DrugsResponse := mkDrugsResponse {
  status : bool;
  code : Z;
  message : string;
  resp_data : PageResponse
}.

(** The repository interface consumed by the service.  [driver] is only
    handed to the enricher and is part of what [enrich_item] stands for. *)
Class DrugRepository := {
  resolve_names : list string → gmap string string;
  query_details : list string → gmap string DetailRecord;
  fetch_external_status : list string → gmap string bool;
  fetch_contrasts : list (string * string) → list InteractionRecord
}.

(** ** Python primitives *)

(** Truthiness of an [Optional[str]]: [None] and the empty string are falsy. *)
Definition truthy (o : option string) : bool :=
  match o with
  | Some s => bool_decide (s ≠ EmptyString)
  | None => false
  end.

(** [l[start:stop]] for any two integers: a negative index counts from the
    end, and both are clamped to the list. *)
Definition py_slice {A} (l : list A) (start stop : Z) : list A :=
  let len := Z.of_nat (length l) in
  let norm i := if i <? 0 then Z.max 0 (i + len) else Z.min i len in
  let lo := norm start in
  let hi := norm stop in
  take (Z.to_nat (hi - lo)) (drop (Z.to_nat lo) l).

(** [itertools.combinations(l, 2)], in the order it yields them. *)
Fixpoint combinations2 {A} (l : list A) : list (A * A) :=
  match l with
  | [] => []
  | x :: xs => (pair x <$> xs) ++ combinations2 xs
  end.

(** [sorted] on strings. *)
Definition sorted (l : list string) : list string := merge_sort String.le l.

(** [d.setdefault(sid, []).append(itm)]. *)
Definition setdefault_append {V} (sid : string) (itm : V)
    (d : gmap string (list V)) : gmap string (list V) :=
  <[sid := default [] (d !! sid) ++ [itm]]> d.

(** ** The service *)

Section Service.

(** The helpers of [utils.helpers], which are not part of the sources at
    hand, and the uuid generator. *)
Context (codes_from_item : DrugItem → list string).
Context (enrich_item : gmap string DetailRecord → DrugItem → DrugItem).
Context (fill_codes : Role → DrugItem → Fields).
Context (uuid4 : nat → string).
Context `{repo : DrugRepository}.

(** *** 1) Resolve any history names to SUBS IDs *)

Definition names_to_resolve (histories : list DrugItem) : list string :=
  foldl (λ acc it,
    match name it with
    | Some n =>
        if bool_decide (codes_from_item it = []) && truthy (name it)
        then acc ++ [n] else acc
    | None => acc
    end) [] histories.

(** The body of the second loop: [if it.name in name_map: it.subs_code = ...]. *)
Definition apply_name_map (name_map : gmap string string) (it : DrugItem) : DrugItem :=
  match name it with
  | Some n =>
      match name_map !! n with
      | Some c => set_subs_code c it
      | None => it
      end
  | None => it
  end.

Definition resolve_histories (histories : list DrugItem) : list DrugItem :=
  match names_to_resolve histories with
  | [] => histories
  | names => apply_name_map (resolve_names names) <$> histories
  end.

(** The payload after step 1. *)
Definition resolve_payload (payload : DrugPayload) : DrugPayload :=
  {| drug_currents := drug_currents payload;
     drug_histories := resolve_histories (drug_histories payload) |}.

(** *** 2) Collect all unique codes *)

(** [list(curr_codes | hist_codes)]: the distinct codes; the iteration order
    of a Python set is unspecified and no later step depends on it. *)
Definition all_codes (payload : DrugPayload) : list string :=
  remove_dups ((drug_currents payload ≫= codes_from_item) ++
               (drug_histories payload ≫= codes_from_item)).

(** *** 3) Detail lookup and enrichment *)

(** Modelled from the spec: [utils.helpers.enrich_items] is not part of the
    sources at hand.  It expands each entry of the list in place from the
    detail records, one entry at a time, and creates no new entries. *)
Definition enrich_items (detail_map : gmap string DetailRecord)
    (items : list DrugItem) : list DrugItem :=
  enrich_item detail_map <$> items.

(** *** 4) Build mapping from SUBS ID to DrugItem *)

(** The loop over the codes of one entry, with its [break]. *)
Fixpoint index_codes (detail_map : gmap string DetailRecord)
    (codes : list string) (itm : DrugItem)
    (subs_to_items : gmap string (list DrugItem)) : gmap string (list DrugItem) :=
  match codes with
  | [] => subs_to_items
  | c :: rest =>
      match detail_map !! c with
      | Some entry =>
          match subs_codes entry with
          | [] => index_codes detail_map rest itm subs_to_items
          | sids => foldl (λ d sid, setdefault_append sid itm d) subs_to_items sids
          end
      | None => index_codes detail_map rest itm subs_to_items
      end
  end.

Definition index_group (detail_map : gmap string DetailRecord)
    (group : list DrugItem)
    (subs_to_items : gmap string (list DrugItem)) : gmap string (list DrugItem) :=
  foldl (λ d itm, index_codes detail_map (codes_from_item itm) itm d)
        subs_to_items group.

Definition build_subs_to_items (detail_map : gmap string DetailRecord)
    (currents histories : list DrugItem) : gmap string (list DrugItem) :=
  index_group detail_map histories (index_group detail_map currents ∅).

(** *** 5) Generate unique SUBS ID pairs *)

Definition unique_sids (subs_to_items : gmap string (list DrugItem)) : list string :=
  sorted (map_to_list subs_to_items).*1.

Definition generate_pairs (subs_to_items : gmap string (list DrugItem))
    : list (string * string) :=
  combinations2 (unique_sids subs_to_items).

(** *** 5.5 - 5.7) External filtering *)

Definition collect_tpu_codes (acc : list string) (group : list DrugItem) : list string :=
  foldl (λ acc item,
    match tpu_code item with
    | Some t => if truthy (tpu_code item) then acc ++ [t] else acc
    | None => acc
    end) acc group.

Definition all_tpu_codes (currents histories : list DrugItem) : list string :=
  collect_tpu_codes (collect_tpu_codes [] currents) histories.

(** The loop over [all_items]: [true] when it leaves through [break]. *)
Fixpoint any_external (external_status_map : gmap string bool)
    (all_items : list DrugItem) : bool :=
  match all_items with
  | [] => false
  | item :: rest =>
      match tpu_code item with
      | Some t =>
          if truthy (tpu_code item) && default false (external_status_map !! t)
          then true
          else any_external external_status_map rest
      | None => any_external external_status_map rest
      end
  end.

Definition should_include (external_status_map : gmap string bool)
    (subs_to_items : gmap string (list DrugItem)) (p : string * string) : bool :=
  let items1 := default [] (subs_to_items !! p.1) in
  let items2 := default [] (subs_to_items !! p.2) in
  negb (any_external external_status_map (items1 ++ items2)).

Definition filter_pairs (external_status_map : gmap string bool)
    (subs_to_items : gmap string (list DrugItem))
    (pairs : list (string * string)) : list (string * string) :=
  foldl (λ acc p,
    if should_include external_status_map subs_to_items p then acc ++ [p] else acc)
    [] pairs.

(** *** 6) Fetch raw contrast records *)

(** The dict comprehension: a later record replaces an earlier one with the
    same key. *)
Definition build_pair_to_data (raw_records : list InteractionRecord)
    : gmap (string * string) InteractionRecord :=
  foldl (λ d r, <[(sub1_id r, sub2_id r) := r]> d) ∅ raw_records.

(** [pair_to_data.get((sid1, sid2)) or pair_to_data.get((sid2, sid1))]; a
    record is a non-empty dict and therefore truthy. *)
Definition lookup_record (pair_to_data : gmap (string * string) InteractionRecord)
    (sid1 sid2 : string) : option InteractionRecord :=
  match pair_to_data !! (sid1, sid2) with
  | Some r => Some r
  | None => pair_to_data !! (sid2, sid1)
  end.

(** *** 7) Assemble ContrastItem rows *)

(** One [ContrastItem(...)]; [k] is the number of uuid draws made before. *)
Definition make_row (k : nat) (rec : InteractionRecord)
    (in_item ct_item : DrugItem) : ContrastItem :=
  {| ref_id := uuid4 k;
     input_fields := fill_codes RoleInput in_item;
     contrast_fields := fill_codes RoleContrast ct_item;
     contrast_type := 0;
     interaction_detail_en := rec_interaction_detail_en rec;
     interaction_detail_th := rec_interaction_detail_th rec;
     onset := rec_onset rec;
     severity := rec_severity rec;
     documentation := rec_documentation rec;
     significance := rec_significance rec;
     management := rec_management rec;
     discussion := rec_discussion rec;
     reference := rec_reference rec;
     input_substances :=
       [ {| sub_code := sub1_id rec; sub_name := sub1_name rec |} ];
     contrast_substances :=
       [ {| sub_code := sub2_id rec; sub_name := sub2_name rec |} ] |}.

(** The state of the assembly loop: the rows so far and the uuid draws made. *)
Definition AsmState : Type := list ContrastItem * nat.

Definition append_row (rec : InteractionRecord) (in_item : DrugItem)
    (st : AsmState) (ct_item : DrugItem) : AsmState :=
  (st.1 ++ [make_row st.2 rec in_item ct_item], S st.2).

Definition rows_for_input (rec : InteractionRecord) (cts : list DrugItem)
    (st : AsmState) (in_item : DrugItem) : AsmState :=
  foldl (append_row rec in_item) st cts.

Definition rows_for_pair (pair_to_data : gmap (string * string) InteractionRecord)
    (subs_to_items : gmap string (list DrugItem))
    (st : AsmState) (p : string * string) : AsmState :=
  match lookup_record pair_to_data p.1 p.2 with
  | None => st
  | Some rec =>
      foldl (rows_for_input rec (default [] (subs_to_items !! p.2))) st
            (default [] (subs_to_items !! p.1))
  end.

Definition assemble (pair_to_data : gmap (string * string) InteractionRecord)
    (subs_to_items : gmap string (list DrugItem))
    (filtered_pairs : list (string * string)) : AsmState :=
  foldl (rows_for_pair pair_to_data subs_to_items) ([], 0%nat) filtered_pairs.

(** *** The stages composed, as in [get_interactions] *)

(** The entry lists after steps 1 to 3. *)
Definition detail_map_of (payload : DrugPayload) : gmap string DetailRecord :=
  query_details (all_codes (resolve_payload payload)).

Definition enriched_currents (payload : DrugPayload) : list DrugItem :=
  enrich_items (detail_map_of payload) (drug_currents (resolve_payload payload)).

Definition enriched_histories (payload : DrugPayload) : list DrugItem :=
  enrich_items (detail_map_of payload) (drug_histories (resolve_payload payload)).

Definition subs_to_items_of (payload : DrugPayload) : gmap string (list DrugItem) :=
  build_subs_to_items (detail_map_of payload)
    (enriched_currents payload) (enriched_histories payload).

Definition pairs_of (payload : DrugPayload) : list (string * string) :=
  generate_pairs (subs_to_items_of payload).

Definition external_status_map_of (payload : DrugPayload) : gmap string bool :=
  fetch_external_status
    (all_tpu_codes (enriched_currents payload) (enriched_histories payload)).

Definition filtered_pairs_of (payload : DrugPayload) : list (string * string) :=
  filter_pairs (external_status_map_of payload) (subs_to_items_of payload)
    (pairs_of payload).

Definition pair_to_data_of (payload : DrugPayload)
    : gmap (string * string) InteractionRecord :=
  build_pair_to_data (fetch_contrasts (filtered_pairs_of payload)).

Definition rows_of (payload : DrugPayload) : list ContrastItem :=
  (assemble (pair_to_data_of payload) (subs_to_items_of payload)
     (filtered_pairs_of payload)).1.

(** *** 8) Paginate, and the response envelope *)

Definition paginate (rows : list ContrastItem) (page row : Z) : PageResponse :=
  let total := Z.of_nat (length rows) in
  let start := (page - 1) * row in
  let stop := start + row in
  let page_data := py_slice rows start stop in
  {| pagination := {| page := page;
                      row := Z.of_nat (length page_data);
                      total := total |};
     data := page_data |}.

Definition get_interactions (payload : DrugPayload) (page row : Z) : DrugsResponse :=
  {| status := true;
     code := 200;
     message := "get success";
     resp_data := paginate (rows_of payload) page row |}.

End Service.

(** ** The service with the raising operations of its body

    The body of [get_interactions] has two operations of its own that can
    raise on well-typed values: the subscript [name_map[it.name]]
    ([KeyError]) and the unpacking [for sid1, sid2 in pairs]
    ([ValueError]).  Here they are partial, and the rest of the function is
    as above. *)

Inductive exn := KeyError | ValueError.

Inductive outcome (A : Type) : Type :=
  | Returns (a : A)
  | Raises (e : exn).

Arguments Returns {A} a.
Arguments Raises {A} e.


(** [d[k]]. *)
Definition getitem {V} (d : gmap string V) (k : string) : outcome V :=
  match d !! k with
  | Some v => Returns v
  | None => Raises KeyError
  end.

(** [a, b = p] for a list [p]. *)
Definition unpack2 {A} (p : list A) : outcome (A * A) :=
  match p with
  | [a; b] => Returns (a, b)
  | _ => Raises ValueError
  end.



Section ServiceChecked.

Context (codes_from_item : DrugItem → list string).
Context (enrich_item : gmap string DetailRecord → DrugItem → DrugItem).
Context (fill_codes : Role → DrugItem → Fields).
Context (uuid4 : nat → string).
Context `{repo : DrugRepository}.





End ServiceChecked.

(** ** Specification-side definitions *)

Section Specification.

Context (codes_from_item : DrugItem → list string).

(** The per-entry contributions of one loop, as a function of the entry. *)
Definition name_candidate (it : DrugItem) : list string :=
  match name it with
  | Some n =>
      if bool_decide (codes_from_item it = []) && truthy (name it) then [n] else []
  | None => []
  end.

(** What the specification of the name resolver says of one entry [it] and
    its state [it'] after resolution: [subs_code] is set exactly when the entry
    lacks any code, has a non-empty name, and the name is in [name_map]. *)
Definition resolved_as_claimed (name_map : gmap string string)
    (it it' : DrugItem) : Prop :=
  match name it with
  | Some n =>
      if bool_decide (codes_from_item it = []) && truthy (name it)
      then match name_map !! n with
           | Some c => it' = set_subs_code c it
           | None => it' = it
           end
      else it' = it
  | None => it' = it
  end.

(** A code wins when its detail record has a non-empty [subs_codes]. *)
Definition has_subs (detail_map : gmap string DetailRecord) (c : string) : Prop :=
  match detail_map !! c with
  | Some entry => subs_codes entry ≠ []
  | None => False
  end.

#[export] Instance has_subs_dec detail_map c : Decision (has_subs detail_map c).
Proof. unfold has_subs. destruct (detail_map !! c); apply _. Defined.

(** The substance identifiers of the first winning code of a list of codes. *)
Definition winning_sids (detail_map : gmap string DetailRecord)
    (codes : list string) : list string :=
  match list_find (has_subs detail_map) codes with
  | Some (_, c) => default [] (subs_codes <$> detail_map !! c)
  | None => []
  end.

(** The entries contributed to [sid] by one entry: one copy per occurrence
    of [sid] among the identifiers of its winning code. *)
Definition contributions (detail_map : gmap string DetailRecord) (sid : string)
    (itm : DrugItem) : list DrugItem :=
  (λ _, itm) <$> filter (sid =.) (winning_sids detail_map (codes_from_item itm)).

End Specification.

(** Strict order on identifiers, and the induced order on pairs. *)
Definition sid_lt (a b : string) : Prop := String.le a b ∧ a ≠ b.

Definition pair_lt (p q : string * string) : Prop :=
  sid_lt p.1 q.1 ∨ (p.1 = q.1 ∧ sid_lt p.2 q.2).

(** An identifier with at least one contributing entry. *)
Definition has_entry (subs_to_items : gmap string (list DrugItem)) (sid : string) : Prop :=
  ∃ itm, itm ∈ default [] (subs_to_items !! sid).

(** Every key of the index has at least one entry. *)
Definition keys_nonempty (d : gmap string (list DrugItem)) : Prop :=
  ∀ sid l, d !! sid = Some l → l ≠ [].


(** The key of a raw record matches the pair under one of the two orderings. *)
Definition keyed_by (s1 s2 : string) (r : InteractionRecord) : Prop :=
  (sub1_id r, sub2_id r) = (s1, s2) ∨ (sub1_id r, sub2_id r) = (s2, s1).

(** A row built from [rec] for the entries [in_item] and [ct_item]. *)
Definition row_from (fill_codes : Role → DrugItem → Fields) (rec : InteractionRecord)
    (in_item ct_item : DrugItem) (r : ContrastItem) : Prop :=
  input_fields r = fill_codes RoleInput in_item ∧
  contrast_fields r = fill_codes RoleContrast ct_item ∧
  contrast_type r = 0 ∧
  interaction_detail_en r = rec_interaction_detail_en rec ∧
  interaction_detail_th r = rec_interaction_detail_th rec ∧
  onset r = rec_onset rec ∧
  severity r = rec_severity rec ∧
  documentation r = rec_documentation rec ∧
  significance r = rec_significance rec ∧
  management r = rec_management rec ∧
  discussion r = rec_discussion rec ∧
  reference r = rec_reference rec ∧
  input_substances r = [ mkSubstanceRef (sub1_id rec) (sub1_name rec) ] ∧
  contrast_substances r = [ mkSubstanceRef (sub2_id rec) (sub2_name rec) ].

(** The rows one filtered pair contributes: none without a record, and
    with a record one row per combination of an entry of the first
    identifier with an entry of the second, in cross-join order. *)
Definition segment_of (fill_codes : Role → DrugItem → Fields)
    (pair_to_data : gmap (string * string) InteractionRecord)
    (subs_to_items : gmap string (list DrugItem))
    (p : string * string) (seg : list ContrastItem) : Prop :=
  let items1 := default [] (subs_to_items !! p.1) in
  let items2 := default [] (subs_to_items !! p.2) in
  match lookup_record pair_to_data p.1 p.2 with
  | None => seg = []
  | Some rec =>
      length seg = (length items1 * length items2)%nat ∧
      Forall2 (λ xy r, row_from fill_codes rec xy.1 xy.2 r)
              (list_prod items1 items2) seg
  end.

(** The rows of a block carry the uuid draws [k], [k+1], ... in order. *)
Definition draws_from (uuid4 : nat → string) (k : nat) (seg : list ContrastItem) : Prop :=
  ref_id <$> seg = uuid4 <$> seq k (length seg).

(** The number of rows one filtered pair adds to the response. *)
Definition pair_row_count
    (pair_to_data : gmap (string * string) InteractionRecord)
    (subs_to_items : gmap string (list DrugItem)) (p : string * string) : nat :=
  match lookup_record pair_to_data p.1 p.2 with
  | None => 0%nat
  | Some _ =>
      (length (default [] (subs_to_items !! p.1)) *
       length (default [] (subs_to_items !! p.2)))%nat
  end.

(** The stored key of a raw record. *)
Definition record_key (r : InteractionRecord) : string * string :=
  (sub1_id r, sub2_id r).

(** ** A concrete request world, used to run the service *)

Module Example.

(** Modelled from the spec: [utils.helpers.codes_from_item] is not part of
    the sources at hand; the codes an entry can be looked up by are its
    explicit substance code, its trade-unit code and its known hierarchy
    codes, in that order. *)
Definition codes_from_item (it : DrugItem) : list string :=
  option_list (subs_code it) ++ option_list (tpu_code it) ++ (hierarchy it).*2.

Definition enrich_item (_ : gmap string DetailRecord) (it : DrugItem) : DrugItem := it.

Definition fill_codes (r : Role) (it : DrugItem) : Fields :=
  match r with
  | RoleInput => [("input_subs_code", subs_code it); ("input_tpu_code", tpu_code it)]
  | RoleContrast => [("contrast_subs_code", subs_code it); ("contrast_tpu_code", tpu_code it)]
  end.

Definition uuid4 (k : nat) : string := "uuid-" +:+ pretty k.

Definition interaction (s1 s2 : string) : InteractionRecord :=
  {| sub1_id := s1; sub2_id := s2;
     sub1_name := "name of " +:+ s1; sub2_name := "name of " +:+ s2;
     rec_interaction_detail_en := "increased bleeding risk";
     rec_interaction_detail_th := "th";
     rec_onset := "delayed"; rec_severity := "major";
     rec_documentation := "probable"; rec_significance := "1";
     rec_management := "monitor"; rec_discussion := "discussion";
     rec_reference := "reference" |}.

#[export] Instance repo : DrugRepository :=
  {| resolve_names := λ _, {[ "aspirin" := "S1" ]};
     query_details := λ _,
       {[ "S1" := mkDetailRecord ["A"] [];
          "S2" := mkDetailRecord ["B"] [];
          "T3" := mkDetailRecord ["C"; "A"] [];
          "TX" := mkDetailRecord ["D"] [] ]};
     fetch_external_status := λ _, {[ "TX" := true; "T3" := false ]};
     fetch_contrasts := λ _, [ interaction "B" "A"; interaction "A" "C" ] |}.

Definition by_name (n : string) : DrugItem := mkDrugItem (Some n) None None [].
Definition by_subs (n s : string) : DrugItem := mkDrugItem (Some n) (Some s) None [].
Definition by_tpu (n t : string) : DrugItem := mkDrugItem (Some n) None (Some t) [].

(** An unresolved "aspirin" in both lists, a coded entry that shares the
    name, and three coded entries. *)
Definition payload : DrugPayload :=
  {| drug_currents := [ by_name "aspirin"; by_subs "warfarin" "S2"; by_tpu "combo" "T3" ];
     drug_histories := [ by_name "aspirin"; by_name "unknown"; by_tpu "import" "TX" ] |}.

(** The service run on this request. *)
Definition rows : list ContrastItem :=
  rows_of codes_from_item enrich_item fill_codes uuid4 payload.

Definition response (pg rw : Z) : DrugsResponse :=
  get_interactions codes_from_item enrich_item fill_codes uuid4 payload pg rw.

Definition resolved : DrugPayload := resolve_payload codes_from_item payload.

Definition name_map : gmap string string :=
  resolve_names (names_to_resolve codes_from_item (drug_histories payload)).

(** A store that knows no interaction at all. *)
Definition repo_without_records : DrugRepository :=
  {| resolve_names := resolve_names;
     query_details := query_details;
     fetch_external_status := fetch_external_status;
     fetch_contrasts := λ _, [] |}.

(** The record of A and B again, with another severity. *)
Definition interaction_minor : InteractionRecord :=
  {| sub1_id := "A"; sub2_id := "B";
     sub1_name := "name of A"; sub2_name := "name of B";
     rec_interaction_detail_en := "increased bleeding risk";
     rec_interaction_detail_th := "th";
     rec_onset := "delayed"; rec_severity := "minor";
     rec_documentation := "probable"; rec_significance := "1";
     rec_management := "monitor"; rec_discussion := "discussion";
     rec_reference := "reference" |}.

(** The first row of the response: "combo" against "warfarin". *)
Definition first_row : ContrastItem :=
  make_row fill_codes uuid4 0 (interaction "B" "A")
    (by_tpu "combo" "T3") (by_subs "warfarin" "S2").

End Example.

(** ** Properties *)

(** *** Loops that append to an accumulator *)

Lemma foldl_snoc_each {A B} (f : list B → A → list B) (g : A → list B) :
  (∀ acc x, f acc x = acc ++ g x) →
  ∀ l acc, foldl f acc l = acc ++ (l ≫= g).
Proof.
  intros Hf l. induction l as [|x l IH]; intros acc; simpl.
  - by rewrite app_nil_r.
  - rewrite IH, Hf. by rewrite <- app_assoc.
Qed.

Lemma bind_singleton_filter {A} (P : A → Prop) `{∀ x, Decision (P x)} (l : list A) :
  l ≫= (λ x, if decide (P x) then [x] else []) = filter P l.
Proof.
  induction l as [|x l IH]; [done|].
  rewrite bind_cons, IH, filter_cons. by destruct (decide (P x)).
Qed.

(** *** Python slicing with non-negative bounds *)

Lemma py_slice_nonneg {A} (l : list A) (start n : Z) :
  0 ≤ start → 0 ≤ n →
  py_slice l start (start + n) = take (Z.to_nat n) (drop (Z.to_nat start) l).
Proof.
  intros Hs Hn. unfold py_slice.
  destruct (Z.ltb_spec start 0) as [?|_]; [lia|].
  destruct (Z.ltb_spec (start + n) 0) as [?|_]; [lia|].
  destruct (Z_le_gt_dec (Z.of_nat (length l)) start) as [Hge|Hlt].
  - rewrite !drop_ge by lia. by rewrite !take_nil.
  - rewrite (Z.min_l start) by lia.
    destruct (Z_le_gt_dec (start + n) (Z.of_nat (length l))) as [Hin|Hout].
    + rewrite Z.min_l by lia. f_equal. lia.
    + rewrite Z.min_r by lia.
      rewrite !take_ge; [done| |]; rewrite length_drop; lia.
Qed.

Lemma py_slice_nil {A} (start stop : Z) : py_slice (@nil A) start stop = [].
Proof. unfold py_slice. by rewrite drop_nil, take_nil. Qed.

Lemma length_take_drop_Z {A} (l : list A) (start n : Z) :
  0 ≤ start → 0 ≤ n →
  Z.of_nat (length (take (Z.to_nat n) (drop (Z.to_nat start) l)))
  = Z.max 0 (Z.min n (Z.of_nat (length l) - start)).
Proof. intros. rewrite length_take, length_drop. lia. Qed.

Section Properties.

Context (codes_from_item : DrugItem → list string).
Context (enrich_item : gmap string DetailRecord → DrugItem → DrugItem).
Context (fill_codes : Role → DrugItem → Fields).
Context (uuid4 : nat → string).
Context `{repo : DrugRepository}.

(** *** Pagination and the envelope *)

(** C2: for [page ≥ 1] and [row ≥ 1] the returned [total] is the number of
    assembled rows, the returned data is the slice
    [[(page-1)*row, (page-1)*row + row)] of the rows clamped to what is
    there, the returned [row] is the length of that slice, which is
    [min(row, total - (page-1)*row)] clamped at 0, and a page past the end
    gives an empty slice with [row = 0]. *)
Theorem pagination_slice (payload : DrugPayload) (pg rw : Z) :
  1 ≤ pg → 1 ≤ rw →
  let rows := rows_of codes_from_item enrich_item fill_codes uuid4 payload in
  let resp :=
    resp_data (get_interactions codes_from_item enrich_item fill_codes uuid4
                 payload pg rw) in
  let start := (pg - 1) * rw in
  total (pagination resp) = Z.of_nat (length rows) ∧
  page (pagination resp) = pg ∧
  data resp = take (Z.to_nat rw) (drop (Z.to_nat start) rows) ∧
  row (pagination resp) = Z.of_nat (length (data resp)) ∧
  row (pagination resp) = Z.max 0 (Z.min rw (total (pagination resp) - start)) ∧
  (total (pagination resp) ≤ start →
     data resp = [] ∧ row (pagination resp) = 0).
Proof.
  intros Hpg Hrw rows resp start.
  assert (Hstart : 0 ≤ start) by (unfold start; nia).
  assert (Hdata : data resp = take (Z.to_nat rw) (drop (Z.to_nat start) rows)).
  { unfold resp, get_interactions, paginate. simpl.
    fold rows. fold start. apply py_slice_nonneg; lia. }
  assert (Hrow : row (pagination resp) = Z.of_nat (length (data resp))) by done.
  assert (Htot : total (pagination resp) = Z.of_nat (length rows)) by done.
  split_and!; try done.
  - rewrite Hrow, Hdata, Htot. apply length_take_drop_Z; lia.
  - intros Hpast. rewrite Hrow, Hdata.
    rewrite drop_ge by lia. by rewrite take_nil.
Qed.

(** *** Name resolution *)

Lemma names_to_resolve_bind (histories : list DrugItem) :
  names_to_resolve codes_from_item histories
  = histories ≫= name_candidate codes_from_item.
Proof.
  unfold names_to_resolve. rewrite (foldl_snoc_each _ (name_candidate codes_from_item)).
  - done.
  - intros acc it. unfold name_candidate.
    destruct (name it); [|by rewrite app_nil_r].
    destruct (_ && _); [done|by rewrite app_nil_r].
Qed.

Lemma elem_of_names_to_resolve (histories : list DrugItem) (n : string) :
  n ∈ names_to_resolve codes_from_item histories ↔
  ∃ it, it ∈ histories ∧ codes_from_item it = [] ∧ name it = Some n ∧ n ≠ EmptyString.
Proof.
  rewrite names_to_resolve_bind, list_elem_of_bind. unfold name_candidate.
  split.
  - intros (it & Hn & Hit). exists it. split; [done|].
    destruct (name it) as [m|] eqn:Hname; [|by apply elem_of_nil in Hn].
    destruct (bool_decide _ && truthy _) eqn:Hc; [|by apply elem_of_nil in Hn].
    apply list_elem_of_singleton in Hn as ->.
    apply andb_prop in Hc as [Hcodes Hname'].
    apply bool_decide_eq_true in Hcodes. simpl in Hname'.
    by apply bool_decide_eq_true in Hname'.
  - intros (it & Hit & Hcodes & Hname & Hne). exists it. split; [|done].
    rewrite Hname. simpl. rewrite bool_decide_eq_true_2 by done.
    rewrite bool_decide_eq_true_2 by done. simpl. by apply list_elem_of_singleton.
Qed.

Lemma resolve_histories_lookup (histories : list DrugItem) (i : nat) (it : DrugItem) :
  names_to_resolve codes_from_item histories ≠ [] →
  histories !! i = Some it →
  resolve_histories codes_from_item histories !! i
  = Some (apply_name_map
            (resolve_names (names_to_resolve codes_from_item histories)) it).
Proof.
  intros Hne Hi. unfold resolve_histories.
  destruct (names_to_resolve codes_from_item histories) as [|n names]; [done|].
  by rewrite list_lookup_fmap, Hi.
Qed.

(** C1 (amended): the resolver acts on the historical list only.  Current
    entries are never modified.  The names sent to the store are those of
    the historical entries that lack any code and have a non-empty name;
    when there is no such entry the store is not called and nothing is
    modified, whatever names the other entries carry.  Otherwise every
    historical entry that lacks any code, has a non-empty name and whose
    name is in the store's result gets the result's code as [subs_code],
    and every historical entry whose name is not in the result (or that
    has no name) is left as it is. *)
Theorem name_resolver_histories_only (payload : DrugPayload) :
  let payload' := resolve_payload codes_from_item payload in
  let names := names_to_resolve codes_from_item (drug_histories payload) in
  drug_currents payload' = drug_currents payload ∧
  length (drug_histories payload') = length (drug_histories payload) ∧
  (names = [] → payload' = payload) ∧
  (∀ n, n ∈ names ↔
        ∃ it, it ∈ drug_histories payload ∧ codes_from_item it = [] ∧
              name it = Some n ∧ n ≠ EmptyString) ∧
  ((∀ it n, it ∈ drug_histories payload → codes_from_item it = [] →
            name it = Some n → n = EmptyString) →
   payload' = payload) ∧
  (∀ i it, drug_histories payload !! i = Some it →
     (∀ n c, codes_from_item it = [] → name it = Some n → n ≠ EmptyString →
        resolve_names names !! n = Some c →
        drug_histories payload' !! i = Some (set_subs_code c it)) ∧
     ((∀ n, name it = Some n → resolve_names names !! n = None) →
        drug_histories payload' !! i = Some it)).
Proof.
  intros payload' names. split_and!.
  - done.
  - unfold payload', resolve_payload, resolve_histories. simpl.
    destruct (names_to_resolve _ _); [done|]. by rewrite length_fmap.
  - intros Hnil. unfold payload', resolve_payload, resolve_histories.
    fold names. rewrite Hnil. by destruct payload.
  - intros n. apply elem_of_names_to_resolve.
  - intros Hnone.
    assert (Hnil : names = []).
    { apply elem_of_nil_inv. intros n Hn.
      apply elem_of_names_to_resolve in Hn as (it & Hit & Hcodes & Hname & Hne).
      by apply Hne, (Hnone it n). }
    unfold payload', resolve_payload, resolve_histories.
    fold names. rewrite Hnil. by destruct payload.
  - intros i it Hi. split.
    + intros n c Hcodes Hname Hn Hres.
      assert (Hin : n ∈ names).
      { apply elem_of_names_to_resolve. exists it.
        split_and!; try done. by eapply list_elem_of_lookup_2. }
      assert (Hne : names ≠ []) by (intros E; rewrite E in Hin; by apply elem_of_nil in Hin).
      unfold payload', resolve_payload. simpl.
      rewrite (resolve_histories_lookup _ i it Hne Hi).
      unfold apply_name_map. fold names. by rewrite Hname, Hres.
    + intros Habsent. unfold payload', resolve_payload, resolve_histories. simpl.
      fold names. destruct names as [|n0 names0] eqn:E; [done|].
      rewrite list_lookup_fmap, Hi. simpl. f_equal. unfold apply_name_map.
      destruct (name it) as [n|] eqn:Hname; [|done].
      by rewrite (Habsent n eq_refl).
Qed.

(** *** External filtering *)

Lemma filter_pairs_filter (external_status_map : gmap string bool)
    (subs_to_items : gmap string (list DrugItem)) (pairs : list (string * string)) :
  filter_pairs external_status_map subs_to_items pairs
  = filter (λ p, should_include external_status_map subs_to_items p = true) pairs.
Proof.
  unfold filter_pairs. rewrite <- bind_singleton_filter.
  rewrite (foldl_snoc_each _
    (λ p, if decide (should_include external_status_map subs_to_items p = true)
          then [p] else [])); [done|].
  intros acc p.
  destruct (decide (should_include external_status_map subs_to_items p = true))
    as [->|Hn]; [done|].
  apply not_true_is_false in Hn as ->. by rewrite app_nil_r.
Qed.

Lemma any_external_true (external_status_map : gmap string bool)
    (all_items : list DrugItem) :
  any_external external_status_map all_items = true ↔
  ∃ item t, item ∈ all_items ∧ tpu_code item = Some t ∧ t ≠ EmptyString ∧
            external_status_map !! t = Some true.
Proof.
  induction all_items as [|item rest IH]; simpl.
  - split; [done|]. intros (item & t & Hin & _). by apply elem_of_nil in Hin.
  - destruct (tpu_code item) as [t|] eqn:Htpu.
    + simpl. destruct (bool_decide (t ≠ EmptyString)) eqn:Hne; simpl.
      * apply bool_decide_eq_true in Hne.
        destruct (external_status_map !! t) as [[|]|] eqn:Hst; simpl.
        -- split; [|done]. intros _. exists item, t. split_and!; try done. left.
        -- rewrite IH. split.
           ++ intros (i & t' & Hin & ?). exists i, t'. split; [by right|done].
           ++ intros (i & t' & Hin & Ht & Hn & Hs).
              apply elem_of_cons in Hin as [->|Hin]; [|by eauto 8].
              congruence.
        -- rewrite IH. split.
           ++ intros (i & t' & Hin & ?). exists i, t'. split; [by right|done].
           ++ intros (i & t' & Hin & Ht & Hn & Hs).
              apply elem_of_cons in Hin as [->|Hin]; [|by eauto 8].
              congruence.
      * apply bool_decide_eq_false in Hne. rewrite IH. split.
        -- intros (i & t' & Hin & ?). exists i, t'. split; [by right|done].
        -- intros (i & t' & Hin & Ht & Hn & Hs).
           apply elem_of_cons in Hin as [->|Hin]; [|by eauto 8].
           exfalso. apply Hne. congruence.
    + rewrite IH. split.
      * intros (i & t' & Hin & ?). exists i, t'. split; [by right|done].
      * intros (i & t' & Hin & Ht & Hn & Hs).
        apply elem_of_cons in Hin as [->|Hin]; [|by eauto 8].
        congruence.
Qed.

(** C3: a candidate pair is removed by the external filter exactly when
    some contributing entry of one of its two identifiers has a trade-unit
    code whose external status is [true].  A trade-unit code missing from
    the status map counts as not external, and a pair whose contributing
    entries carry no trade-unit code is kept. *)
Theorem external_filter_removes_iff (external_status_map : gmap string bool)
    (subs_to_items : gmap string (list DrugItem))
    (pairs : list (string * string)) (s1 s2 : string) :
  (s1, s2) ∈ pairs →
  let contributing :=
    default [] (subs_to_items !! s1) ++ default [] (subs_to_items !! s2) in
  let filtered := filter_pairs external_status_map subs_to_items pairs in
  ((s1, s2) ∉ filtered ↔
     ∃ item t, item ∈ contributing ∧ tpu_code item = Some t ∧ t ≠ EmptyString ∧
               external_status_map !! t = Some true) ∧
  ((∀ item t, item ∈ contributing → tpu_code item = Some t →
       external_status_map !! t = None) → (s1, s2) ∈ filtered) ∧
  ((∀ item, item ∈ contributing → truthy (tpu_code item) = false) →
       (s1, s2) ∈ filtered).
Proof.
  intros Hin contributing filtered.
  assert (Hiff : (s1, s2) ∈ filtered ↔
            any_external external_status_map contributing = false).
  { unfold filtered. rewrite filter_pairs_filter, list_elem_of_filter.
    unfold should_include. simpl. fold contributing.
    rewrite negb_true_iff. tauto. }
  split_and!.
  - rewrite Hiff, <- any_external_true. by destruct (any_external _ _).
  - intros Habsent. apply Hiff, not_true_is_false.
    intros (item & t & Hi & Ht & _ & Hs)%any_external_true.
    by rewrite (Habsent item t Hi Ht) in Hs.
  - intros Hnone. apply Hiff, not_true_is_false.
    intros (item & t & Hi & Ht & Hne & _)%any_external_true.
    specialize (Hnone item Hi). rewrite Ht in Hnone. simpl in Hnone.
    by apply bool_decide_eq_false in Hnone.
Qed.

(** *** Record lookup *)

Lemma pair_to_data_fold (raw_records : list InteractionRecord)
    (d : gmap (string * string) InteractionRecord) (k : string * string) :
  foldl (λ d r, <[(sub1_id r, sub2_id r) := r]> d) d raw_records !! k
  = match last (filter (λ r, (sub1_id r, sub2_id r) = k) raw_records) with
    | Some r => Some r
    | None => d !! k
    end.
Proof.
  revert d. induction raw_records as [|r rs IH]; intros d; [done|].
  simpl. rewrite IH, filter_cons.
  destruct (decide ((sub1_id r, sub2_id r) = k)) as [Hk|Hk].
  - rewrite last_cons. destruct (last (filter _ rs)); [done|].
    by rewrite <- Hk, lookup_insert_eq.
  - destruct (last (filter _ rs)); [done|]. by rewrite lookup_insert_ne.
Qed.

Lemma pair_to_data_lookup (raw_records : list InteractionRecord) (k : string * string) :
  build_pair_to_data raw_records !! k
  = last (filter (λ r, (sub1_id r, sub2_id r) = k) raw_records).
Proof.
  unfold build_pair_to_data. rewrite pair_to_data_fold.
  by destruct (last _).
Qed.

Lemma pair_to_data_Some (raw_records : list InteractionRecord)
    (k : string * string) (r : InteractionRecord) :
  build_pair_to_data raw_records !! k = Some r →
  r ∈ raw_records ∧ (sub1_id r, sub2_id r) = k.
Proof.
  rewrite pair_to_data_lookup. intros Hl.
  assert (Hin : r ∈ filter (λ r, (sub1_id r, sub2_id r) = k) raw_records).
  { apply last_Some in Hl as [l' ->]. apply elem_of_app. right. left. }
  apply list_elem_of_filter in Hin. tauto.
Qed.

Lemma pair_to_data_is_Some (raw_records : list InteractionRecord) (k : string * string) :
  is_Some (build_pair_to_data raw_records !! k) ↔
  ∃ r, r ∈ raw_records ∧ (sub1_id r, sub2_id r) = k.
Proof.
  split.
  - intros [r Hr]. exists r. by apply pair_to_data_Some.
  - intros (r & Hin & Hk). rewrite pair_to_data_lookup.
    destruct (last _) eqn:Hl; [done|]. apply last_None in Hl.
    assert (Hf : r ∈ filter (λ r, (sub1_id r, sub2_id r) = k) raw_records)
      by by apply list_elem_of_filter.
    rewrite Hl in Hf. by apply elem_of_nil in Hf.
Qed.

Lemma lookup_record_Some (raw_records : list InteractionRecord)
    (s1 s2 : string) (r : InteractionRecord) :
  lookup_record (build_pair_to_data raw_records) s1 s2 = Some r →
  r ∈ raw_records ∧ keyed_by s1 s2 r.
Proof.
  unfold lookup_record, keyed_by.
  destruct (build_pair_to_data raw_records !! (s1, s2)) as [r1|] eqn:H1.
  - intros [= <-]. apply pair_to_data_Some in H1. tauto.
  - intros H2. apply pair_to_data_Some in H2. tauto.
Qed.

Lemma lookup_record_is_Some (raw_records : list InteractionRecord) (s1 s2 : string) :
  is_Some (lookup_record (build_pair_to_data raw_records) s1 s2) ↔
  ∃ r, r ∈ raw_records ∧ keyed_by s1 s2 r.
Proof.
  split.
  - intros [r Hr]. exists r. by apply lookup_record_Some.
  - intros (r & Hin & Hk). unfold lookup_record.
    destruct (build_pair_to_data raw_records !! (s1, s2)) as [r1|] eqn:H1; [done|].
    destruct Hk as [Hk|Hk].
    + assert (is_Some (build_pair_to_data raw_records !! (s1, s2))) as [? ?]
        by (apply pair_to_data_is_Some; eauto).
      congruence.
    + apply pair_to_data_is_Some; eauto.
Qed.

(** C4: the lookup of a pair succeeds exactly when the batch holds a record
    keyed by one of the two orderings of the pair, the record it returns is
    such a record of the batch, and when one record of the batch matches
    the pair, that record is returned whichever ordering it is keyed by;
    success does not depend on the order in which the pair is asked for. *)
Theorem record_lookup_either_ordering (raw_records : list InteractionRecord)
    (s1 s2 : string) :
  let pair_to_data := build_pair_to_data raw_records in
  (is_Some (lookup_record pair_to_data s1 s2) ↔
     ∃ r, r ∈ raw_records ∧ keyed_by s1 s2 r) ∧
  (∀ r, lookup_record pair_to_data s1 s2 = Some r →
     r ∈ raw_records ∧ keyed_by s1 s2 r) ∧
  (∀ r, r ∈ raw_records → keyed_by s1 s2 r →
     (∀ r', r' ∈ raw_records → keyed_by s1 s2 r' → r' = r) →
     lookup_record pair_to_data s1 s2 = Some r) ∧
  (is_Some (lookup_record pair_to_data s1 s2) ↔
     is_Some (lookup_record pair_to_data s2 s1)).
Proof.
  intros pair_to_data.
  assert (Hsome : ∀ a b, is_Some (lookup_record pair_to_data a b) ↔
            ∃ r, r ∈ raw_records ∧ keyed_by a b r)
    by (intros a b; apply lookup_record_is_Some).
  split_and!.
  - apply Hsome.
  - intros r. apply lookup_record_Some.
  - intros r Hin Hk Huniq.
    destruct (proj2 (Hsome s1 s2)) as [r' Hr']; [by eauto|].
    rewrite Hr'. f_equal. apply lookup_record_Some in Hr' as [? ?]. by apply Huniq.
  - rewrite !Hsome. unfold keyed_by.
    split; intros (r & Hin & [Hk|Hk]); exists r; auto.
Qed.

(** *** Assembly *)

Lemma inner_loop_rows (rec : InteractionRecord) (in_item : DrugItem)
    (cts : list DrugItem) (st : AsmState) :
  ∃ seg,
    rows_for_input fill_codes uuid4 rec cts st in_item = (st.1 ++ seg, (st.2 + length seg)%nat) ∧
    Forall2 (λ xy r, row_from fill_codes rec xy.1 xy.2 r) (pair in_item <$> cts) seg ∧
    draws_from uuid4 st.2 seg.
Proof.
  unfold rows_for_input. revert st.
  induction cts as [|ct cts IH]; intros st.
  - exists []. simpl. rewrite app_nil_r, Nat.add_0_r. by destruct st.
  - simpl. destruct (IH (append_row fill_codes uuid4 rec in_item st ct))
      as (seg & Heq & Hrows & Hdraws).
    exists (make_row fill_codes uuid4 st.2 rec in_item ct :: seg).
    split_and!.
    + rewrite Heq. simpl. rewrite <- app_assoc. simpl. f_equal. lia.
    + constructor; [|done]. by repeat split.
    + unfold draws_from in *.
      change ((append_row fill_codes uuid4 rec in_item st ct).2) with (S st.2) in Hdraws.
      rewrite fmap_cons, Hdraws. done.
Qed.

Lemma draws_from_app (k : nat) (seg1 seg2 : list ContrastItem) :
  draws_from uuid4 k seg1 → draws_from uuid4 (k + length seg1) seg2 →
  draws_from uuid4 k (seg1 ++ seg2).
Proof.
  unfold draws_from. intros H1 H2.
  rewrite fmap_app, H1, H2, length_app, seq_app, fmap_app. done.
Qed.

Lemma cross_join_rows (rec : InteractionRecord) (ins cts : list DrugItem)
    (st : AsmState) :
  ∃ seg,
    foldl (rows_for_input fill_codes uuid4 rec cts) st ins
      = (st.1 ++ seg, (st.2 + length seg)%nat) ∧
    Forall2 (λ xy r, row_from fill_codes rec xy.1 xy.2 r) (list_prod ins cts) seg ∧
    draws_from uuid4 st.2 seg.
Proof.
  revert st. induction ins as [|x ins IH]; intros st.
  - exists []. simpl. rewrite app_nil_r, Nat.add_0_r. split_and!; [by destruct st|constructor|done].
  - simpl. destruct (inner_loop_rows rec x cts st) as (seg1 & Heq1 & Hrows1 & Hd1).
    rewrite Heq1.
    destruct (IH (st.1 ++ seg1, (st.2 + length seg1)%nat)) as (seg2 & Heq2 & Hrows2 & Hd2).
    exists (seg1 ++ seg2). split_and!.
    + rewrite Heq2. simpl. rewrite <- app_assoc, length_app. f_equal. lia.
    + apply Forall2_app; [|done]. done.
    + by apply draws_from_app.
Qed.

Lemma pair_rows (pair_to_data : gmap (string * string) InteractionRecord)
    (subs_to_items : gmap string (list DrugItem))
    (st : AsmState) (p : string * string) :
  ∃ seg,
    rows_for_pair fill_codes uuid4 pair_to_data subs_to_items st p
      = (st.1 ++ seg, (st.2 + length seg)%nat) ∧
    segment_of fill_codes pair_to_data subs_to_items p seg ∧
    draws_from uuid4 st.2 seg.
Proof.
  unfold rows_for_pair, segment_of.
  destruct (lookup_record pair_to_data p.1 p.2) as [rec|].
  - destruct (cross_join_rows rec (default [] (subs_to_items !! p.1))
               (default [] (subs_to_items !! p.2)) st) as (seg & Heq & Hrows & Hd).
    exists seg. split_and!; try done.
    apply Forall2_length in Hrows. by rewrite <- Hrows, length_prod.
  - exists []. simpl. rewrite app_nil_r, Nat.add_0_r. by destruct st.
Qed.

Lemma assemble_from (pair_to_data : gmap (string * string) InteractionRecord)
    (subs_to_items : gmap string (list DrugItem))
    (filtered_pairs : list (string * string)) (st : AsmState) :
  ∃ segs,
    foldl (rows_for_pair fill_codes uuid4 pair_to_data subs_to_items) st filtered_pairs
      = (st.1 ++ concat segs, (st.2 + length (concat segs))%nat) ∧
    Forall2 (segment_of fill_codes pair_to_data subs_to_items) filtered_pairs segs ∧
    draws_from uuid4 st.2 (concat segs).
Proof.
  revert st. induction filtered_pairs as [|p ps IH]; intros st.
  - exists []. simpl. rewrite app_nil_r, Nat.add_0_r. split_and!; [by destruct st|constructor|done].
  - simpl. destruct (pair_rows pair_to_data subs_to_items st p) as (seg & Heq & Hseg & Hd).
    rewrite Heq.
    destruct (IH (st.1 ++ seg, (st.2 + length seg)%nat)) as (segs & Heqs & Hsegs & Hds).
    exists (seg :: segs). split_and!.
    + rewrite Heqs. simpl. rewrite <- app_assoc, length_app. f_equal. lia.
    + by constructor.
    + simpl. by apply draws_from_app.
Qed.

(** C8: the assembled rows are the concatenation, over the filtered pairs
    in order, of one segment per pair.  A pair with no record under either
    ordering has an empty segment.  A pair with a record has
    [|entries(s1)| × |entries(s2)|] rows, one per combination of an entry
    of [s1] with an entry of [s2], each with the input fields of the first
    and the contrast fields of the second, discriminator [0], the metadata
    of the record, and one-element substance lists holding the record's own
    identifiers and names. *)
Theorem assembled_rows_cross_join (payload : DrugPayload) :
  let filtered_pairs := filtered_pairs_of codes_from_item enrich_item payload in
  let raw_records := fetch_contrasts filtered_pairs in
  let pair_to_data := build_pair_to_data raw_records in
  let subs_to_items := subs_to_items_of codes_from_item enrich_item payload in
  (∃ segments : list (list ContrastItem),
     rows_of codes_from_item enrich_item fill_codes uuid4 payload = concat segments ∧
     Forall2 (segment_of fill_codes pair_to_data subs_to_items)
             filtered_pairs segments) ∧
  (∀ s1 s2,
     lookup_record pair_to_data s1 s2 = None ↔
     ¬ ∃ r, r ∈ raw_records ∧ keyed_by s1 s2 r) ∧
  (∀ s1 s2 rec,
     lookup_record pair_to_data s1 s2 = Some rec →
     rec ∈ raw_records ∧ keyed_by s1 s2 rec).
Proof.
  intros filtered_pairs raw_records pair_to_data subs_to_items. split_and!.
  - unfold rows_of, assemble.
    destruct (assemble_from pair_to_data subs_to_items filtered_pairs ([], 0%nat))
      as (segs & Heq & Hsegs & _).
    exists segs. split; [|done].
    fold filtered_pairs raw_records pair_to_data subs_to_items in Heq.
    unfold pair_to_data_of. fold filtered_pairs raw_records pair_to_data subs_to_items.
    by rewrite Heq.
  - intros s1 s2. rewrite <- lookup_record_is_Some. fold pair_to_data.
    rewrite eq_None_not_Some. done.
  - intros s1 s2 rec. apply lookup_record_Some.
Qed.

(** C9: when the draws of the uuid generator are pairwise distinct, the
    rows of one response have pairwise distinct [ref_id]s: every row,
    also within the cross-join of one pair, takes a draw of its own. *)
Theorem ref_ids_distinct (payload : DrugPayload) :
  Inj (=) (=) uuid4 →
  NoDup (ref_id <$> rows_of codes_from_item enrich_item fill_codes uuid4 payload).
Proof.
  intros Hinj. unfold rows_of, assemble.
  destruct (assemble_from (pair_to_data_of codes_from_item enrich_item payload)
              (subs_to_items_of codes_from_item enrich_item payload)
              (filtered_pairs_of codes_from_item enrich_item payload) ([], 0%nat))
    as (segs & Heq & _ & Hdraws).
  rewrite Heq. simpl. unfold draws_from in Hdraws. rewrite Hdraws.
  apply NoDup_fmap_2; [done|]. apply NoDup_seq.
Qed.

(** *** Substance index *)

Lemma winning_sids_cons (detail_map : gmap string DetailRecord)
    (c : string) (rest : list string) :
  winning_sids detail_map (c :: rest)
  = if decide (has_subs detail_map c)
    then default [] (subs_codes <$> detail_map !! c)
    else winning_sids detail_map rest.
Proof.
  unfold winning_sids. simpl.
  destruct (decide (has_subs detail_map c)); [done|].
  by destruct (list_find (has_subs detail_map) rest) as [[i c']|].
Qed.

Lemma index_codes_winning (detail_map : gmap string DetailRecord)
    (codes : list string) (itm : DrugItem) (d : gmap string (list DrugItem)) :
  index_codes detail_map codes itm d
  = foldl (λ d sid, setdefault_append sid itm d) d (winning_sids detail_map codes).
Proof.
  induction codes as [|c rest IH]; [done|].
  rewrite winning_sids_cons. simpl.
  destruct (decide (has_subs detail_map c)) as [Hs|Hs]; unfold has_subs in Hs.
  - destruct (detail_map !! c) as [entry|]; [|done]. simpl.
    by destruct (subs_codes entry).
  - destruct (detail_map !! c) as [entry|]; [|apply IH].
    destruct (subs_codes entry) as [|s ss]; [apply IH|]. by destruct Hs.
Qed.

Lemma setdefault_append_lookup (s sid : string) (itm : DrugItem)
    (d : gmap string (list DrugItem)) :
  default [] (setdefault_append s itm d !! sid)
  = default [] (d !! sid) ++ (if decide (sid = s) then [itm] else []).
Proof.
  unfold setdefault_append. destruct (decide (sid = s)) as [->|Hne].
  - by rewrite lookup_insert_eq.
  - rewrite lookup_insert_ne by done. by rewrite app_nil_r.
Qed.

Lemma setdefault_fold_lookup (sids : list string) (sid : string) (itm : DrugItem)
    (d : gmap string (list DrugItem)) :
  default [] (foldl (λ d s, setdefault_append s itm d) d sids !! sid)
  = default [] (d !! sid) ++ ((λ _, itm) <$> filter (sid =.) sids).
Proof.
  revert d. induction sids as [|s sids IH]; intros d; simpl.
  - by rewrite app_nil_r.
  - rewrite IH, setdefault_append_lookup, filter_cons, <- app_assoc.
    by destruct (decide (sid = s)).
Qed.

Lemma index_group_lookup (detail_map : gmap string DetailRecord)
    (group : list DrugItem) (sid : string) (d : gmap string (list DrugItem)) :
  default [] (index_group codes_from_item detail_map group d !! sid)
  = default [] (d !! sid) ++ (group ≫= contributions codes_from_item detail_map sid).
Proof.
  unfold index_group. revert d.
  induction group as [|itm group IH]; intros d; simpl.
  - by rewrite app_nil_r.
  - rewrite IH, index_codes_winning, setdefault_fold_lookup, <- app_assoc. done.
Qed.

Lemma build_subs_to_items_lookup (detail_map : gmap string DetailRecord)
    (currents histories : list DrugItem) (sid : string) :
  default [] (build_subs_to_items codes_from_item detail_map currents histories !! sid)
  = (currents ++ histories) ≫= contributions codes_from_item detail_map sid.
Proof.
  unfold build_subs_to_items.
  rewrite !index_group_lookup, lookup_empty, bind_app. done.
Qed.

Lemma setdefault_append_nonempty (s : string) (itm : DrugItem)
    (d : gmap string (list DrugItem)) :
  keys_nonempty d → keys_nonempty (setdefault_append s itm d).
Proof.
  intros Hd sid l. unfold setdefault_append.
  destruct (decide (s = sid)) as [->|Hne].
  - rewrite lookup_insert_eq. intros [= <-]. by destruct (default [] (d !! sid)).
  - rewrite lookup_insert_ne by done. apply Hd.
Qed.

Lemma index_codes_nonempty (detail_map : gmap string DetailRecord)
    (codes : list string) (itm : DrugItem) (d : gmap string (list DrugItem)) :
  keys_nonempty d → keys_nonempty (index_codes detail_map codes itm d).
Proof.
  rewrite index_codes_winning. generalize (winning_sids detail_map codes).
  intros sids. revert d. induction sids as [|s sids IH]; intros d Hd; [done|].
  simpl. by apply IH, setdefault_append_nonempty.
Qed.

Lemma index_group_nonempty (detail_map : gmap string DetailRecord)
    (group : list DrugItem) (d : gmap string (list DrugItem)) :
  keys_nonempty d → keys_nonempty (index_group codes_from_item detail_map group d).
Proof.
  unfold index_group. revert d.
  induction group as [|itm group IH]; intros d Hd; [done|].
  simpl. by apply IH, index_codes_nonempty.
Qed.

Lemma build_subs_to_items_nonempty (detail_map : gmap string DetailRecord)
    (currents histories : list DrugItem) :
  keys_nonempty (build_subs_to_items codes_from_item detail_map currents histories).
Proof.
  unfold build_subs_to_items. do 2 apply index_group_nonempty.
  intros sid l. by rewrite lookup_empty.
Qed.

Lemma elem_of_contributions (detail_map : gmap string DetailRecord)
    (sid : string) (itm x : DrugItem) :
  x ∈ contributions codes_from_item detail_map sid itm ↔
  x = itm ∧ sid ∈ winning_sids detail_map (codes_from_item itm).
Proof.
  unfold contributions. rewrite list_elem_of_fmap. split.
  - intros (s & -> & Hs). apply list_elem_of_filter in Hs as [<- Hs]. done.
  - intros [-> Hs]. exists sid. split; [done|]. by apply list_elem_of_filter.
Qed.

(** A key of the built index is an identifier of the winning code of some
    entry, and conversely. *)
Lemma build_subs_to_items_key (detail_map : gmap string DetailRecord)
    (currents histories : list DrugItem) (sid : string) :
  is_Some (build_subs_to_items codes_from_item detail_map currents histories !! sid) ↔
  ∃ itm, itm ∈ currents ++ histories ∧
         sid ∈ winning_sids detail_map (codes_from_item itm).
Proof.
  pose proof (build_subs_to_items_lookup detail_map currents histories sid) as Hl.
  pose proof (build_subs_to_items_nonempty detail_map currents histories) as Hne.
  split.
  - intros [l Hsome]. rewrite Hsome in Hl. simpl in Hl.
    destruct l as [|x l]; [by apply Hne in Hsome|].
    assert (Hx : x ∈ (currents ++ histories) ≫= contributions codes_from_item detail_map sid)
      by (rewrite <- Hl; left).
    apply list_elem_of_bind in Hx as (itm & Hx & Hin).
    apply elem_of_contributions in Hx as [_ Hs]. eauto.
  - intros (itm & Hin & Hs).
    assert (Hx : itm ∈ (currents ++ histories) ≫= contributions codes_from_item detail_map sid).
    { apply list_elem_of_bind. exists itm. split; [|done].
      by apply elem_of_contributions. }
    rewrite <- Hl in Hx.
    destruct (build_subs_to_items _ _ _ _ !! sid); [done|].
    by apply elem_of_nil in Hx.
Qed.

(** C5: the list the index holds for an identifier is, over the entries of
    both lists in order, one copy of the entry per occurrence of the
    identifier among the substance codes of its first code whose detail
    record has a non-empty [subs_codes]; the codes after that one are not
    looked at, and an entry with no such code contributes nothing. *)
Theorem substance_index_first_winning_code (detail_map : gmap string DetailRecord)
    (currents histories : list DrugItem) :
  let index := build_subs_to_items codes_from_item detail_map currents histories in
  (∀ sid, default [] (index !! sid)
          = (currents ++ histories) ≫= contributions codes_from_item detail_map sid) ∧
  (∀ sid, is_Some (index !! sid) ↔
          ∃ itm, itm ∈ currents ++ histories ∧
                 sid ∈ winning_sids detail_map (codes_from_item itm)) ∧
  (∀ codes i c entry,
     codes !! i = Some c → detail_map !! c = Some entry → subs_codes entry ≠ [] →
     (∀ j c', (j < i)%nat → codes !! j = Some c' → ¬ has_subs detail_map c') →
     winning_sids detail_map codes = subs_codes entry) ∧
  (∀ codes, (∀ c, c ∈ codes → ¬ has_subs detail_map c) →
     winning_sids detail_map codes = []).
Proof.
  intros index. split_and!.
  - apply build_subs_to_items_lookup.
  - apply build_subs_to_items_key.
  - intros codes i c entry Hi Hc Hne Hfirst. unfold winning_sids.
    assert (Hfind : list_find (has_subs detail_map) codes = Some (i, c)).
    { apply list_find_Some. split_and!; [done| |].
      - unfold has_subs. by rewrite Hc.
      - intros j c' Hj Hlt. by eapply Hfirst. }
    by rewrite Hfind, Hc.
  - intros codes Hnone. unfold winning_sids.
    assert (Hfind : list_find (has_subs detail_map) codes = None).
    { apply list_find_None, Forall_forall. intros c Hc. by apply Hnone. }
    by rewrite Hfind.
Qed.

(** *** Candidate pairs *)

Lemma sid_lt_irrefl (a : string) : ¬ sid_lt a a.
Proof. by intros [_ ?]. Qed.

Lemma sid_lt_asym (a b : string) : sid_lt a b → sid_lt b a → False.
Proof. intros [Hab Hne] [Hba _]. apply Hne. by apply (anti_symm String.le). Qed.

Lemma StronglySorted_NoDup {A} (R : relation A) (l : list A) :
  (∀ x, ¬ R x x) → StronglySorted R l → NoDup l.
Proof.
  intros Hirr. induction 1 as [|x l Hl IH Hx]; constructor; [|done].
  intros Hin. rewrite Forall_forall in Hx. by apply (Hirr x), Hx.
Qed.

Lemma StronglySorted_strict (l : list string) :
  StronglySorted String.le l → NoDup l → StronglySorted sid_lt l.
Proof.
  induction 1 as [|x l Hl IH Hx]; intros Hnd; [constructor|].
  apply NoDup_cons in Hnd as [Hx' Hnd]. constructor; [by apply IH|].
  rewrite Forall_forall in *. intros y Hy. split; [by apply Hx|].
  by intros ->.
Qed.

Lemma unique_sids_sorted (d : gmap string (list DrugItem)) :
  StronglySorted sid_lt (unique_sids d).
Proof.
  unfold unique_sids, sorted. apply StronglySorted_strict.
  - apply StronglySorted_merge_sort; apply _.
  - rewrite merge_sort_Permutation. apply NoDup_fst_map_to_list.
Qed.

Lemma elem_of_unique_sids (d : gmap string (list DrugItem)) (s : string) :
  s ∈ unique_sids d ↔ is_Some (d !! s).
Proof.
  unfold unique_sids, sorted. rewrite merge_sort_Permutation, list_elem_of_fmap.
  split.
  - intros ([k l] & -> & Hin). apply elem_of_map_to_list in Hin. by exists l.
  - intros [l Hl]. exists (s, l). split; [done|]. by apply elem_of_map_to_list.
Qed.

Lemma unique_sids_ext (d d' : gmap string (list DrugItem)) :
  (∀ s, is_Some (d !! s) ↔ is_Some (d' !! s)) → unique_sids d = unique_sids d'.
Proof.
  intros Hdom.
  apply (StronglySorted_unique_strong sid_lt); try apply unique_sids_sorted.
  - intros x y _ _ Hxy Hyx. destruct (sid_lt_asym x y Hxy Hyx).
  - apply NoDup_Permutation.
    + eapply StronglySorted_NoDup; [apply sid_lt_irrefl|apply unique_sids_sorted].
    + eapply StronglySorted_NoDup; [apply sid_lt_irrefl|apply unique_sids_sorted].
    + intros s. by rewrite !elem_of_unique_sids.
Qed.

Lemma elem_of_combinations2_sorted (l : list string) (a b : string) :
  StronglySorted sid_lt l →
  (a, b) ∈ combinations2 l ↔ a ∈ l ∧ b ∈ l ∧ sid_lt a b.
Proof.
  induction 1 as [|x xs Hxs IH Hx]; simpl.
  - rewrite elem_of_nil. split; [done|]. intros (Ha & _). by apply elem_of_nil in Ha.
  - rewrite Forall_forall in Hx.
    rewrite elem_of_app, list_elem_of_fmap, IH, !elem_of_cons. split.
    + intros [(y & [= -> ->] & Hy)|(Ha & Hb & Hlt)]; [|by auto].
      split_and!; [by left|by right|by apply Hx].
    + intros ([->|Ha] & [->|Hb] & Hlt).
      * by apply sid_lt_irrefl in Hlt.
      * left. by exists b.
      * destruct (sid_lt_asym a x Hlt (Hx a Ha)).
      * by right.
Qed.

Lemma combinations2_sorted (l : list string) :
  StronglySorted sid_lt l → StronglySorted pair_lt (combinations2 l).
Proof.
  induction 1 as [|x xs Hxs IH Hx]; simpl; [constructor|].
  rewrite Forall_forall in Hx. apply StronglySorted_app_2.
  - intros p q Hp Hq. apply list_elem_of_fmap in Hp as (y & -> & Hy).
    destruct q as [a b]. apply (elem_of_combinations2_sorted xs a b Hxs) in Hq as (Ha & _).
    left. simpl. by apply Hx.
  - eapply StronglySorted_fmap; [|exact Hxs].
    intros y z Hyz. right. by split.
  - done.
Qed.

Lemma pair_lt_irrefl (p : string * string) : ¬ pair_lt p p.
Proof. intros [H|[_ H]]; by apply sid_lt_irrefl in H. Qed.

Lemma has_entry_is_Some (d : gmap string (list DrugItem)) (s : string) :
  keys_nonempty d → has_entry d s ↔ is_Some (d !! s).
Proof.
  intros Hne. unfold has_entry. split.
  - intros [itm Hin]. destruct (d !! s); [done|]. by apply elem_of_nil in Hin.
  - intros [l Hl]. rewrite Hl. simpl. destruct l as [|x l]; [by apply Hne in Hl|].
    exists x. left.
Qed.

(** C6: the pre-filter pair list is [combinations2] of the sorted keys of
    the index.  A pair of identifiers is in it (in one of its two orders)
    exactly when the two are distinct and each has a contributing entry;
    every listed pair has its smaller identifier first, so there is no
    self-pair, no pair occurs twice or in both orders, and the list is in
    the lexicographic order of the sorted identifiers. *)
Theorem candidate_pairs_are_combinations (detail_map : gmap string DetailRecord)
    (currents histories : list DrugItem) :
  let index := build_subs_to_items codes_from_item detail_map currents histories in
  let pairs := generate_pairs index in
  (∀ a b, ((a, b) ∈ pairs ∨ (b, a) ∈ pairs) ↔
          a ≠ b ∧ has_entry index a ∧ has_entry index b) ∧
  (∀ a b, (a, b) ∈ pairs → sid_lt a b) ∧
  (∀ a, (a, a) ∉ pairs) ∧
  NoDup pairs ∧
  (∀ a b, (a, b) ∈ pairs → (b, a) ∉ pairs) ∧
  pairs = combinations2 (unique_sids index) ∧
  StronglySorted sid_lt (unique_sids index) ∧
  (∀ s, s ∈ unique_sids index ↔ has_entry index s) ∧
  StronglySorted pair_lt pairs.
Proof.
  intros index pairs.
  pose proof (unique_sids_sorted index) as Hsorted.
  assert (Hkeys : ∀ s, s ∈ unique_sids index ↔ has_entry index s).
  { intros s. rewrite elem_of_unique_sids, has_entry_is_Some; [done|].
    apply build_subs_to_items_nonempty. }
  assert (Hpair : ∀ a b, (a, b) ∈ pairs ↔
            has_entry index a ∧ has_entry index b ∧ sid_lt a b).
  { intros a b. unfold pairs, generate_pairs.
    by rewrite (elem_of_combinations2_sorted _ a b Hsorted), !Hkeys. }
  assert (Hps : StronglySorted pair_lt pairs) by by apply combinations2_sorted.
  split_and!; try done.
  - intros a b. rewrite !Hpair. split.
    + intros [(Ha & Hb & Hlt)|(Hb & Ha & Hlt)]; split_and!; try done.
      * by destruct Hlt.
      * destruct Hlt as [_ Hne]. by intros ->.
    + intros (Hne & Ha & Hb).
      destruct (String.le_total a b) as [Hle|Hle].
      * left. by split_and!.
      * right. by split_and!.
  - intros a b Hin. by apply Hpair in Hin as (_ & _ & Hlt).
  - intros a Hin. apply Hpair in Hin as (_ & _ & Hlt). by apply sid_lt_irrefl in Hlt.
  - eapply StronglySorted_NoDup; [apply pair_lt_irrefl|done].
  - intros a b Hab Hba. apply Hpair in Hab as (_ & _ & Hlt).
    apply Hpair in Hba as (_ & _ & Hlt'). destruct (sid_lt_asym a b Hlt Hlt').
Qed.

(** *** Order independence *)

Lemma names_to_resolve_perm (h h' : list DrugItem) :
  h ≡ₚ h' →
  names_to_resolve codes_from_item h ≡ₚ names_to_resolve codes_from_item h'.
Proof. intros Hp. rewrite !names_to_resolve_bind. by rewrite Hp. Qed.

Lemma resolve_histories_perm (h h' : list DrugItem) :
  h ≡ₚ h' →
  resolve_names (names_to_resolve codes_from_item h)
    = resolve_names (names_to_resolve codes_from_item h') →
  resolve_histories codes_from_item h ≡ₚ resolve_histories codes_from_item h'.
Proof.
  intros Hp Hres. pose proof (names_to_resolve_perm h h' Hp) as Hn.
  unfold resolve_histories.
  destruct (names_to_resolve codes_from_item h) as [|n ns] eqn:E;
    destruct (names_to_resolve codes_from_item h') as [|n' ns'] eqn:E'.
  - done.
  - by apply Permutation_nil_cons in Hn.
  - symmetry in Hn. by apply Permutation_nil_cons in Hn.
  - rewrite Hres. by apply fmap_Permutation.
Qed.

Lemma build_subs_to_items_perm (detail_map : gmap string DetailRecord)
    (c c' h h' : list DrugItem) (s : string) :
  c ≡ₚ c' → h ≡ₚ h' →
  is_Some (build_subs_to_items codes_from_item detail_map c h !! s) ↔
  is_Some (build_subs_to_items codes_from_item detail_map c' h' !! s).
Proof.
  intros Hc Hh. rewrite !build_subs_to_items_key.
  split; intros (itm & Hin & Hs); exists itm; split; try done.
  - by rewrite <- Hc, <- Hh.
  - by rewrite Hc, Hh.
Qed.

(** C7: permuting the entries within the current list and within the
    historical list, the stores answering name resolution and detail
    lookup as before, gives the same candidate pairs (the same list, hence
    the same set). *)
Theorem pairs_order_independent (payload payload' : DrugPayload) :
  drug_currents payload ≡ₚ drug_currents payload' →
  drug_histories payload ≡ₚ drug_histories payload' →
  resolve_names (names_to_resolve codes_from_item (drug_histories payload))
    = resolve_names (names_to_resolve codes_from_item (drug_histories payload')) →
  detail_map_of codes_from_item payload = detail_map_of codes_from_item payload' →
  pairs_of codes_from_item enrich_item payload
  = pairs_of codes_from_item enrich_item payload'.
Proof.
  intros Hc Hh Hres Hdm.
  unfold pairs_of, generate_pairs. f_equal. apply unique_sids_ext. intros s.
  unfold subs_to_items_of, enriched_currents, enriched_histories, enrich_items.
  rewrite <- Hdm. apply build_subs_to_items_perm.
  - simpl. by apply fmap_Permutation.
  - simpl. by apply fmap_Permutation, resolve_histories_perm.
Qed.

End Properties.

(** ** Further behaviour of the service *)

Section Behaviour.

Context (codes_from_item : DrugItem → list string).
Context (enrich_item : gmap string DetailRecord → DrugItem → DrugItem).
Context (fill_codes : Role → DrugItem → Fields).
Context (uuid4 : nat → string).
Context `{repo : DrugRepository}.

(** *** Step 1: the batch of names and the effect of the resolver *)

(** X1: the batch handed to [resolve_names] holds the names of the
    historical entries that have no code and a non-empty name, in list
    order, one per such entry: a name carried by several entries is sent
    several times. *)
Theorem names_batch_in_order_with_repeats (histories : list DrugItem) :
  Some <$> names_to_resolve codes_from_item histories
  = name <$> filter (λ it, codes_from_item it = [] ∧ truthy (name it) = true)
                    histories.
Proof.
  rewrite names_to_resolve_bind.
  induction histories as [|it hs IH]; [done|].
  rewrite bind_cons, fmap_app, IH, filter_cons. unfold name_candidate.
  destruct (decide (codes_from_item it = [] ∧ truthy (name it) = true))
    as [[Hc Ht]|Hn].
  - destruct (name it) as [n|] eqn:Hname; [|done].
    rewrite bool_decide_eq_true_2 by done. rewrite Ht. simpl.
    by rewrite Hname.
  - destruct (name it) as [n|] eqn:Hname; [|done].
    destruct (bool_decide (codes_from_item it = [])) eqn:Hc; [|done].
    apply bool_decide_eq_true in Hc.
    destruct (truthy (Some n)) eqn:Ht; [|done].
    by destruct Hn.
Qed.

(** X2: once the store has been called, every historical entry whose name
    is a key of the result gets the result's code, also an entry that
    already had a code of its own. *)
Theorem resolver_sets_every_named_history (histories : list DrugItem)
    (i : nat) (it : DrugItem) (n c : string) :
  names_to_resolve codes_from_item histories ≠ [] →
  histories !! i = Some it →
  name it = Some n →
  resolve_names (names_to_resolve codes_from_item histories) !! n = Some c →
  resolve_histories codes_from_item histories !! i = Some (set_subs_code c it).
Proof.
  intros Hne Hi Hname Hres.
  rewrite (resolve_histories_lookup codes_from_item histories i it Hne Hi).
  unfold apply_name_map. by rewrite Hname, Hres.
Qed.

(** X3: the resolver keeps the number and the order of the historical
    entries and changes nothing but [subs_code]: name, trade-unit code and
    hierarchy of every entry are as before, and a changed [subs_code] is
    the store's answer for the entry's name. *)
Theorem resolver_changes_only_subs_code (histories : list DrugItem) :
  length (resolve_histories codes_from_item histories) = length histories ∧
  ∀ i it', resolve_histories codes_from_item histories !! i = Some it' →
    ∃ it, histories !! i = Some it ∧
      name it' = name it ∧ tpu_code it' = tpu_code it ∧
      hierarchy it' = hierarchy it ∧
      (subs_code it' = subs_code it ∨
       ∃ n c, name it = Some n ∧
              resolve_names (names_to_resolve codes_from_item histories) !! n
              = Some c ∧
              subs_code it' = Some c).
Proof.
  unfold resolve_histories.
  destruct (names_to_resolve codes_from_item histories) as [|n0 ns] eqn:E.
  - split; [done|]. intros i it' Hi. exists it'. auto 10.
  - split; [by rewrite length_fmap|]. intros i it' Hi.
    rewrite list_lookup_fmap in Hi.
    destruct (histories !! i) as [it|] eqn:Hit; [|done].
    injection Hi as <-. exists it. split; [done|].
    unfold apply_name_map. destruct (name it) as [n|] eqn:Hname; [|auto 10].
    destruct (resolve_names (n0 :: ns) !! n) as [c|] eqn:Hres; [|auto 10].
    split_and!; try done. right. by exists n, c.
Qed.

(** *** Step 2: the codes sent to the detail lookup *)

(** X4: the list handed to [query_details] has no repeated code and holds
    exactly the codes of the entries of both lists. *)
Theorem all_codes_distinct_and_complete (payload : DrugPayload) :
  NoDup (all_codes codes_from_item payload) ∧
  ∀ c, c ∈ all_codes codes_from_item payload ↔
       ∃ it, it ∈ drug_currents payload ++ drug_histories payload ∧
             c ∈ codes_from_item it.
Proof.
  unfold all_codes. split; [apply NoDup_remove_dups|].
  intros c. rewrite elem_of_remove_dups, <- bind_app, list_elem_of_bind.
  split; intros (it & H1 & H2); by exists it.
Qed.

(** *** Step 5.5: the trade-unit codes sent to the status lookup *)

Lemma collect_tpu_codes_filter (acc : list string) (group : list DrugItem) :
  Some <$> collect_tpu_codes acc group
  = (Some <$> acc) ++
    (tpu_code <$> filter (λ it, truthy (tpu_code it) = true) group).
Proof.
  unfold collect_tpu_codes. revert acc.
  induction group as [|it group IH]; intros acc.
  - simpl. by rewrite app_nil_r.
  - cbn [foldl]. rewrite IH, filter_cons.
    destruct (decide (truthy (tpu_code it) = true)) as [Hd|Hd].
    + rewrite Hd. destruct (tpu_code it) as [t|] eqn:Ht; [|done].
      by rewrite fmap_app, <- app_assoc, !fmap_cons, Ht.
    + apply not_true_is_false in Hd. rewrite Hd. by destruct (tpu_code it).
Qed.

(** X5: the list handed to [fetch_external_status] holds the non-empty
    trade-unit codes of the current entries followed by those of the
    historical entries, in list order and without removing repeats. *)
Theorem tpu_batch_in_order_with_repeats (currents histories : list DrugItem) :
  Some <$> all_tpu_codes currents histories
  = tpu_code <$> filter (λ it, truthy (tpu_code it) = true)
                        (currents ++ histories).
Proof.
  unfold all_tpu_codes. rewrite !collect_tpu_codes_filter, filter_app, fmap_app.
  done.
Qed.

(** *** Steps 5 to 5.7: pair generation and the external filter *)

Lemma length_combinations2 {A} (l : list A) :
  (2 * length (combinations2 l) = length l * (length l - 1))%nat.
Proof.
  induction l as [|x xs IH]; [done|].
  simpl. rewrite length_app, length_fmap. destruct xs as [|y ys]; [done|].
  simpl in *. lia.
Qed.

Lemma length_unique_sids (d : gmap string (list DrugItem)) :
  length (unique_sids d) = size d.
Proof.
  unfold unique_sids, sorted.
  rewrite (Permutation_length (merge_sort_Permutation _ _)).
  by rewrite length_fmap, length_map_to_list.
Qed.

Lemma double_length_generate_pairs (subs_to_items : gmap string (list DrugItem)) :
  (2 * length (generate_pairs subs_to_items)
   = size subs_to_items * (size subs_to_items - 1))%nat.
Proof.
  unfold generate_pairs.
  by rewrite length_combinations2, length_unique_sids.
Qed.

(** X6: with [n] identifiers in the index the pair list has [n(n-1)/2]
    pairs, so the batch sent to the stores grows quadratically. *)
Theorem candidate_pair_count (subs_to_items : gmap string (list DrugItem)) :
  length (generate_pairs subs_to_items)
  = (size subs_to_items * (size subs_to_items - 1) / 2)%nat.
Proof.
  apply Nat.div_unique_exact; [done|].
  by rewrite double_length_generate_pairs.
Qed.

(** X7: the external filter keeps the surviving pairs in their order,
    filtering twice changes nothing more, and nothing is removed when the
    status map flags no code as external. *)
Theorem external_filter_keeps_order (external_status_map : gmap string bool)
    (subs_to_items : gmap string (list DrugItem))
    (pairs : list (string * string)) :
  filter_pairs external_status_map subs_to_items pairs `sublist_of` pairs ∧
  filter_pairs external_status_map subs_to_items
    (filter_pairs external_status_map subs_to_items pairs)
  = filter_pairs external_status_map subs_to_items pairs ∧
  ((∀ t, external_status_map !! t ≠ Some true) →
   filter_pairs external_status_map subs_to_items pairs = pairs).
Proof.
  rewrite !filter_pairs_filter. split_and!.
  - apply sublist_filter.
  - rewrite list_filter_filter. apply list_filter_iff. tauto.
  - intros Hnone. induction pairs as [|p ps IH]; [done|].
    rewrite filter_cons, IH. rewrite decide_True; [done|].
    unfold should_include. apply negb_true_iff, not_true_is_false.
    intros (item & t & _ & _ & _ & Hs)%any_external_true. by apply Hnone in Hs.
Qed.

(** X8: whether a pair is external does not depend on the order in which
    its contributing entries are visited. *)
Theorem external_check_order_insensitive (external_status_map : gmap string bool)
    (all_items all_items' : list DrugItem) :
  all_items ≡ₚ all_items' →
  any_external external_status_map all_items
  = any_external external_status_map all_items'.
Proof.
  intros Hp.
  destruct (any_external external_status_map all_items) eqn:E;
    destruct (any_external external_status_map all_items') eqn:E'; try done.
  - apply any_external_true in E as (item & t & Hin & H).
    rewrite Hp in Hin.
    assert (any_external external_status_map all_items' = true)
      by (apply any_external_true; eauto).
    congruence.
  - apply any_external_true in E' as (item & t & Hin & H).
    rewrite <- Hp in Hin.
    assert (any_external external_status_map all_items = true)
      by (apply any_external_true; eauto).
    congruence.
Qed.

(** X9: an entry whose trade-unit code the store flags as external is a
    contributing entry of no pair that survives the filter, on either
    side. *)
Theorem external_entry_in_no_filtered_pair (payload : DrugPayload)
    (item : DrugItem) (t : string) (p : string * string) :
  tpu_code item = Some t → t ≠ EmptyString →
  external_status_map_of codes_from_item enrich_item payload !! t = Some true →
  p ∈ filtered_pairs_of codes_from_item enrich_item payload →
  (item ∉ default [] (subs_to_items_of codes_from_item enrich_item payload !! p.1)) ∧
  (item ∉ default [] (subs_to_items_of codes_from_item enrich_item payload !! p.2)).
Proof.
  intros Ht Hne Hst Hp. unfold filtered_pairs_of in Hp.
  rewrite filter_pairs_filter in Hp. apply list_elem_of_filter in Hp as [Hinc _].
  unfold should_include in Hinc. apply negb_true_iff in Hinc.
  assert (Hno : item ∉
    (default [] (subs_to_items_of codes_from_item enrich_item payload !! p.1) ++
     default [] (subs_to_items_of codes_from_item enrich_item payload !! p.2))).
  { intros Hin.
    assert (any_external (external_status_map_of codes_from_item enrich_item payload)
              (default [] (subs_to_items_of codes_from_item enrich_item payload !! p.1) ++
               default [] (subs_to_items_of codes_from_item enrich_item payload !! p.2))
            = true) by (apply any_external_true; eauto 10).
    congruence. }
  by apply not_elem_of_app in Hno.
Qed.

(** X10: when the index has at most one identifier there is no pair, hence
    no row: the response has empty data and [total = 0], whatever the
    stores hold. *)
Theorem no_rows_below_two_substances (payload : DrugPayload) (pg rw : Z) :
  (size (subs_to_items_of codes_from_item enrich_item payload) ≤ 1)%nat →
  let resp :=
    get_interactions codes_from_item enrich_item fill_codes uuid4 payload pg rw in
  pairs_of codes_from_item enrich_item payload = [] ∧
  rows_of codes_from_item enrich_item fill_codes uuid4 payload = [] ∧
  data (resp_data resp) = [] ∧
  total (pagination (resp_data resp)) = 0 ∧
  row (pagination (resp_data resp)) = 0.
Proof.
  intros Hsize resp.
  assert (Hpairs : pairs_of codes_from_item enrich_item payload = []).
  { apply nil_length_inv. unfold pairs_of.
    pose proof (double_length_generate_pairs
                  (subs_to_items_of codes_from_item enrich_item payload)) as H.
    destruct (size _) as [|[|n]]; simpl in H; lia. }
  assert (Hrows : rows_of codes_from_item enrich_item fill_codes uuid4 payload = []).
  { unfold rows_of, pair_to_data_of, filtered_pairs_of. by rewrite Hpairs. }
  split_and!; try done; unfold resp, get_interactions, paginate; simpl;
    by rewrite Hrows, ?py_slice_nil.
Qed.

(** *** Step 6: the record table *)

(** X11: when the batch holds several records with the same stored key, the
    table keeps the last of them. *)
Theorem later_record_replaces_earlier (l1 l2 : list InteractionRecord)
    (r : InteractionRecord) :
  (∀ r', r' ∈ l2 → record_key r' ≠ record_key r) →
  build_pair_to_data (l1 ++ r :: l2) !! record_key r = Some r.
Proof.
  intros Hlater. rewrite pair_to_data_lookup, filter_app, filter_cons_True by done.
  assert (Hnil : filter (λ r', (sub1_id r', sub2_id r') = record_key r) l2 = []).
  { induction l2 as [|x l2 IH]; [done|].
    rewrite filter_cons_False by (apply Hlater; left).
    apply IH. intros r' Hr'. apply Hlater. by right. }
  rewrite Hnil. apply last_snoc.
Qed.

(** X12: a record stored under the ordering the pair is asked for is
    preferred to one stored under the reverse ordering: the lookup of
    [(s1, s2)] then returns a record of the batch keyed [(s1, s2)]. *)
Theorem lookup_prefers_direct_ordering (raw_records : list InteractionRecord)
    (s1 s2 : string) (r : InteractionRecord) :
  r ∈ raw_records → record_key r = (s1, s2) →
  ∃ r', lookup_record (build_pair_to_data raw_records) s1 s2 = Some r' ∧
        record_key r' = (s1, s2) ∧ r' ∈ raw_records.
Proof.
  intros Hin Hkey.
  destruct (proj2 (pair_to_data_is_Some raw_records (s1, s2))) as [r' Hr'];
    [by eauto|].
  exists r'. unfold lookup_record. rewrite Hr'.
  apply pair_to_data_Some in Hr' as [? ?]. done.
Qed.

(** *** Step 7: the assembled rows *)

Lemma elem_of_concat {A} (x : A) (ls : list (list A)) :
  x ∈ concat ls ↔ ∃ l, x ∈ l ∧ l ∈ ls.
Proof.
  rewrite list_elem_of_In, in_concat. split.
  - intros (l & Hl & Hx). exists l. by rewrite !list_elem_of_In.
  - intros (l & Hx & Hl). exists l. by rewrite <- !list_elem_of_In.
Qed.

Lemma segments_length
    (pair_to_data : gmap (string * string) InteractionRecord)
    (subs_to_items : gmap string (list DrugItem))
    (pairs : list (string * string)) (segs : list (list ContrastItem)) :
  Forall2 (segment_of fill_codes pair_to_data subs_to_items) pairs segs →
  length (concat segs)
  = sum_list (pair_row_count pair_to_data subs_to_items <$> pairs).
Proof.
  induction 1 as [|p seg ps segs Hseg _ IH]; [done|].
  simpl. rewrite length_app, IH. f_equal.
  unfold segment_of in Hseg. unfold pair_row_count.
  destruct (lookup_record pair_to_data p.1 p.2); [by destruct Hseg|by subst].
Qed.

Lemma rows_of_segments (payload : DrugPayload) :
  ∃ segs,
    rows_of codes_from_item enrich_item fill_codes uuid4 payload = concat segs ∧
    Forall2 (segment_of fill_codes
               (pair_to_data_of codes_from_item enrich_item payload)
               (subs_to_items_of codes_from_item enrich_item payload))
            (filtered_pairs_of codes_from_item enrich_item payload) segs ∧
    draws_from uuid4 0 (concat segs).
Proof.
  unfold rows_of, assemble.
  destruct (assemble_from fill_codes uuid4
              (pair_to_data_of codes_from_item enrich_item payload)
              (subs_to_items_of codes_from_item enrich_item payload)
              (filtered_pairs_of codes_from_item enrich_item payload) ([], 0%nat))
    as (segs & Heq & Hsegs & Hd).
  exists segs. by rewrite Heq.
Qed.

(** X13: the number of assembled rows, the [total] of the response, is the
    sum over the filtered pairs of [|entries(s1)| × |entries(s2)|] for the
    pairs that have a record and of 0 for the others. *)
Theorem total_is_sum_over_pairs (payload : DrugPayload) (pg rw : Z) :
  total (pagination (resp_data
    (get_interactions codes_from_item enrich_item fill_codes uuid4 payload pg rw)))
  = Z.of_nat (sum_list
      (pair_row_count (pair_to_data_of codes_from_item enrich_item payload)
                      (subs_to_items_of codes_from_item enrich_item payload)
       <$> filtered_pairs_of codes_from_item enrich_item payload)).
Proof.
  destruct (rows_of_segments payload) as (segs & Hrows & Hsegs & _).
  unfold get_interactions, paginate. simpl. rewrite Hrows.
  by rewrite (segments_length _ _ _ _ Hsegs).
Qed.

(** X14: the uuid generator is drawn once per row and never otherwise: the
    [ref_id]s of the rows are its draws 0, 1, 2, ... in row order, and the
    number of draws made equals the number of rows. *)
Theorem one_uuid_draw_per_row
    (pair_to_data : gmap (string * string) InteractionRecord)
    (subs_to_items : gmap string (list DrugItem))
    (filtered_pairs : list (string * string)) :
  let st := assemble fill_codes uuid4 pair_to_data subs_to_items filtered_pairs in
  ref_id <$> st.1 = uuid4 <$> seq 0 (length st.1) ∧ st.2 = length st.1.
Proof.
  intros st. unfold st, assemble.
  destruct (assemble_from fill_codes uuid4 pair_to_data subs_to_items
              filtered_pairs ([], 0%nat)) as (segs & Heq & _ & Hd).
  rewrite Heq. done.
Qed.

(** X15: every row of the response comes from a filtered pair that has a
    record of the batch keyed by one of its two orderings, from an entry of
    the pair's first identifier (input side) and an entry of its second
    (contrast side).  The display lists follow the record, so their codes
    are the pair's identifiers in the record's order, which is the reverse
    of the roles when the record is stored reversed. *)
Theorem every_row_traces_back (payload : DrugPayload) (r : ContrastItem) :
  r ∈ rows_of codes_from_item enrich_item fill_codes uuid4 payload →
  let index := subs_to_items_of codes_from_item enrich_item payload in
  let filtered_pairs := filtered_pairs_of codes_from_item enrich_item payload in
  ∃ p rec in_item ct_item,
    p ∈ filtered_pairs ∧
    rec ∈ fetch_contrasts filtered_pairs ∧
    keyed_by p.1 p.2 rec ∧
    in_item ∈ default [] (index !! p.1) ∧
    ct_item ∈ default [] (index !! p.2) ∧
    row_from fill_codes rec in_item ct_item r ∧
    ((sub_code <$> input_substances r, sub_code <$> contrast_substances r)
       = ([p.1], [p.2]) ∨
     (sub_code <$> input_substances r, sub_code <$> contrast_substances r)
       = ([p.2], [p.1])).
Proof.
  intros Hr index filtered_pairs.
  destruct (rows_of_segments payload) as (segs & Hrows & Hsegs & _).
  rewrite Hrows in Hr. apply elem_of_concat in Hr as (seg & Hrseg & Hseg).
  apply list_elem_of_lookup in Hseg as [i Hi].
  destruct (Forall2_lookup_r _ _ _ _ _ Hsegs Hi) as (p & Hp & Hok).
  unfold segment_of in Hok.
  destruct (lookup_record _ p.1 p.2) as [rec|] eqn:Hrec;
    [|subst seg; by apply elem_of_nil in Hrseg].
  destruct Hok as [_ Hall].
  apply list_elem_of_lookup in Hrseg as [j Hj].
  destruct (Forall2_lookup_r _ _ _ _ _ Hall Hj) as ([x y] & Hxy & Hrow).
  apply list_elem_of_lookup_2, list_elem_of_In, in_prod_iff in Hxy as [Hx Hy].
  apply list_elem_of_In in Hx, Hy.
  apply lookup_record_Some in Hrec as [Hin Hkey].
  exists p, rec, x, y. split_and!; try done.
  - by eapply list_elem_of_lookup_2.
  - destruct Hrow as (_ & _ & _ & _ & _ & _ & _ & _ & _ & _ & _ & _ & Hi1 & Hi2).
    rewrite Hi1, Hi2. simpl.
    destruct Hkey as [[= -> ->]|[= -> ->]]; auto.
Qed.

(** X16: for a filtered pair with a record, every combination of an entry
    of the first identifier with an entry of the second has its row in the
    response; an entry indexed under both identifiers is joined with
    itself. *)
Theorem every_combination_has_a_row (payload : DrugPayload)
    (p : string * string) (rec : InteractionRecord) (in_item ct_item : DrugItem) :
  let index := subs_to_items_of codes_from_item enrich_item payload in
  p ∈ filtered_pairs_of codes_from_item enrich_item payload →
  lookup_record (pair_to_data_of codes_from_item enrich_item payload) p.1 p.2
    = Some rec →
  in_item ∈ default [] (index !! p.1) →
  ct_item ∈ default [] (index !! p.2) →
  ∃ r, r ∈ rows_of codes_from_item enrich_item fill_codes uuid4 payload ∧
       row_from fill_codes rec in_item ct_item r.
Proof.
  intros index Hp Hrec Hin Hct.
  destruct (rows_of_segments payload) as (segs & Hrows & Hsegs & _).
  apply list_elem_of_lookup in Hp as [i Hi].
  destruct (Forall2_lookup_l _ _ _ _ _ Hsegs Hi) as (seg & Hseg & Hok).
  unfold segment_of in Hok. rewrite Hrec in Hok. destruct Hok as [_ Hall].
  assert (Hxy : (in_item, ct_item) ∈
            list_prod (default [] (index !! p.1)) (default [] (index !! p.2))).
  { apply list_elem_of_In, in_prod_iff. by rewrite <- !list_elem_of_In. }
  apply list_elem_of_lookup in Hxy as [j Hj].
  destruct (Forall2_lookup_l _ _ _ _ _ Hall Hj) as (r & Hr & Hrow).
  exists r. split; [|done]. rewrite Hrows. apply elem_of_concat.
  exists seg. split; by eapply list_elem_of_lookup_2.
Qed.

(** X17: when the store returns no record for the filtered pairs, the
    response has no row. *)
Theorem no_records_no_rows (payload : DrugPayload) :
  fetch_contrasts (filtered_pairs_of codes_from_item enrich_item payload) = [] →
  rows_of codes_from_item enrich_item fill_codes uuid4 payload = [].
Proof.
  intros Hnone.
  destruct (rows_of_segments payload) as (segs & Hrows & Hsegs & _).
  apply nil_length_inv. rewrite Hrows, (segments_length _ _ _ _ Hsegs).
  unfold pair_to_data_of. rewrite Hnone.
  generalize (filtered_pairs_of codes_from_item enrich_item payload).
  intros ps. induction ps as [|p ps IH]; [done|].
  rewrite fmap_cons. cbn [sum_list sum_list_with]. rewrite IH.
  unfold pair_row_count, lookup_record, build_pair_to_data. simpl.
  by rewrite !lookup_empty.
Qed.

(** *** Step 8: pagination for any two integers *)

Lemma paginate_data (rows : list ContrastItem) (pg rw : Z) :
  data (paginate rows pg rw) = py_slice rows ((pg - 1) * rw) ((pg - 1) * rw + rw).
Proof. done. Qed.

(** X18: for any [page] and [row], also zero or negative ones, there is no
    error: the returned data is a run of consecutive rows, [total] is the
    number of all rows, the returned [row] is the number of rows returned
    and lies between 0 and [total], and it does not exceed a non-negative
    requested [row]. *)
Theorem page_is_a_window (rows : list ContrastItem) (pg rw : Z) :
  let resp := paginate rows pg rw in
  total (pagination resp) = Z.of_nat (length rows) ∧
  page (pagination resp) = pg ∧
  row (pagination resp) = Z.of_nat (length (data resp)) ∧
  0 ≤ row (pagination resp) ≤ total (pagination resp) ∧
  (0 ≤ rw → row (pagination resp) ≤ rw) ∧
  ∃ k n, data resp = take n (drop k rows).
Proof.
  intros resp. split_and!; try done.
  - unfold resp, paginate. simpl. lia.
  - unfold resp, paginate, py_slice. simpl.
    rewrite length_take, length_drop. lia.
  - intros Hrw. unfold resp, paginate, py_slice. simpl.
    rewrite length_take, length_drop.
    destruct (Z.ltb_spec ((pg - 1) * rw) 0);
      destruct (Z.ltb_spec ((pg - 1) * rw + rw) 0); lia.
  - unfold resp, paginate, py_slice. simpl. eauto.
Qed.

(** X19: page 0 with a non-negative size, and any page with size 0, give
    empty data with [row = 0]. *)
Theorem page_zero_or_size_zero_is_empty (rows : list ContrastItem) (pg rw : Z) :
  (pg = 0 ∧ 0 ≤ rw) ∨ rw = 0 →
  data (paginate rows pg rw) = [] ∧ row (pagination (paginate rows pg rw)) = 0.
Proof.
  intros Hcase.
  assert (Hd : data (paginate rows pg rw) = []).
  { rewrite paginate_data. unfold py_slice. apply nil_length_inv.
    rewrite length_take, length_drop.
    destruct (Z.ltb_spec ((pg - 1) * rw) 0);
      destruct (Z.ltb_spec ((pg - 1) * rw + rw) 0); nia. }
  split; [done|]. unfold paginate in *. simpl in *. by rewrite Hd.
Qed.

(** X20: a negative page number counts from the end: for [page ≤ -1] and
    [row ≥ 1] the data is the window of [row] rows that starts
    [(1 - page) * row] rows before the end, when the list is that long. *)
Theorem negative_page_counts_from_end (rows : list ContrastItem) (pg rw : Z) :
  pg ≤ -1 → 1 ≤ rw → (1 - pg) * rw ≤ Z.of_nat (length rows) →
  data (paginate rows pg rw)
  = take (Z.to_nat rw)
         (drop (Z.to_nat (Z.of_nat (length rows) - (1 - pg) * rw)) rows).
Proof.
  intros Hpg Hrw Hlen. rewrite paginate_data. unfold py_slice.
  assert (E : (pg - 1) * rw = - ((1 - pg) * rw)) by ring.
  assert (Hs : 2 * rw ≤ (1 - pg) * rw) by nia.
  rewrite E. clear E. set (s := (1 - pg) * rw) in *.
  destruct (Z.ltb_spec (- s) 0) as [_|?]; [|lia].
  destruct (Z.ltb_spec (- s + rw) 0) as [_|?]; [|lia].
  f_equal; [|f_equal]. all: lia.
Qed.

(** X21: a negative size on page 1 drops rows from the end: the data is
    all rows but the last [-row]. *)
Theorem negative_size_drops_tail (rows : list ContrastItem) (rw : Z) :
  rw < 0 →
  data (paginate rows 1 rw)
  = take (Z.to_nat (Z.of_nat (length rows) + rw)) rows.
Proof.
  intros Hrw. rewrite paginate_data.
  replace ((1 - 1) * rw) with 0 by lia. rewrite Z.add_0_l.
  unfold py_slice. change (0 <? 0) with false. cbn iota.
  destruct (Z.ltb_spec rw 0) as [_|?]; [|lia].
  rewrite (Z.min_l 0) by lia. rewrite drop_0. f_equal. lia.
Qed.

(** X22: for a size [row ≥ 1] the pages 1, 2, ..., n put one after the
    other are the first [n * row] rows: no row is lost or repeated between
    pages, and all rows are reached once [n * row] covers the list. *)
Theorem pages_concatenate (rows : list ContrastItem) (rw : Z) (n : nat) :
  1 ≤ rw →
  concat ((λ k, data (paginate rows (Z.of_nat k) rw)) <$> seq 1 n)
  = take (n * Z.to_nat rw) rows ∧
  (Z.of_nat (length rows) ≤ Z.of_nat n * rw →
   concat ((λ k, data (paginate rows (Z.of_nat k) rw)) <$> seq 1 n) = rows).
Proof.
  intros Hrw.
  assert (Hcat : concat ((λ k, data (paginate rows (Z.of_nat k) rw)) <$> seq 1 n)
                 = take (n * Z.to_nat rw) rows).
  { induction n as [|n IH]; [by rewrite take_0|].
    rewrite seq_S, fmap_app, concat_app, IH.
    cbn [fmap list_fmap concat]. rewrite app_nil_r.
    rewrite paginate_data, py_slice_nonneg by lia.
    replace (Z.to_nat ((Z.of_nat (1 + n) - 1) * rw)) with (n * Z.to_nat rw)%nat by nia.
    rewrite take_take_drop. f_equal. lia. }
  split; [done|]. intros Hcover. rewrite Hcat. apply take_ge. nia.
Qed.

(** *** The envelope, and the raising operations of the body *)















End Behaviour.

(** ** The service run on the example request *)

#[local] Existing Instance Example.repo.

Example run_names_to_resolve :
  names_to_resolve Example.codes_from_item (drug_histories Example.payload)
  = ["aspirin"; "unknown"].
Proof. reflexivity. Qed.

Example run_pairs :
  pairs_of Example.codes_from_item Example.enrich_item Example.payload
  = [("A", "B"); ("A", "C"); ("A", "D"); ("B", "C"); ("B", "D"); ("C", "D")].
Proof. vm_compute. reflexivity. Qed.

Example run_filtered_pairs :
  filtered_pairs_of Example.codes_from_item Example.enrich_item Example.payload
  = [("A", "B"); ("A", "C"); ("B", "C")].
Proof. vm_compute. reflexivity. Qed.

Example run_ref_ids :
  ref_id <$> Example.rows = ["uuid-0"; "uuid-1"; "uuid-2"; "uuid-3"].
Proof. vm_compute. reflexivity. Qed.

Example run_page_past_end :
  pagination (resp_data (Example.response 3 10))
  = {| page := 3; row := 0; total := 4 |}.
Proof. vm_compute. reflexivity. Qed.

(** *** Name resolution on the example *)

(** C1 (as stated) fails: the unresolved current entry named "aspirin" has
    no code and a non-empty name that is in the store's result, and it is
    left without [subs_code]. *)
Lemma name_resolver_skips_currents :
  ¬ Forall2 (resolved_as_claimed Example.codes_from_item Example.name_map)
      (drug_currents Example.payload ++ drug_histories Example.payload)
      (drug_currents Example.resolved ++ drug_histories Example.resolved).
Proof.
  intros H. inversion H as [|it it' l l' Hhead _]; subst.
  vm_compute in Hhead. discriminate Hhead.
Qed.

(** A historical entry that has a code is overwritten as well when its name
    is in the result. *)
Example name_resolver_overwrites_coded_history :
  resolve_histories Example.codes_from_item
    [ Example.by_name "aspirin"; Example.by_subs "aspirin" "S9" ]
  = [ Example.by_subs "aspirin" "S1"; Example.by_subs "aspirin" "S1" ].
Proof. vm_compute. reflexivity. Qed.

(** The resolver run on the example: the unresolved historical "aspirin" is
    resolved, "unknown" stays as it is, the current list is untouched; and
    a request whose only historical entry is coded is left alone although
    its name is one the store knows. *)
Lemma name_resolver_histories_only_witness :
  drug_histories Example.resolved !! 0%nat
    = Some (set_subs_code "S1" (Example.by_name "aspirin")) ∧
  drug_histories Example.resolved !! 1%nat = Some (Example.by_name "unknown") ∧
  drug_currents Example.resolved = drug_currents Example.payload ∧
  "aspirin" ∈ names_to_resolve Example.codes_from_item
                (drug_histories Example.payload) ∧
  resolve_payload Example.codes_from_item
    (mkDrugPayload [] [Example.by_subs "aspirin" "S9"])
  = mkDrugPayload [] [Example.by_subs "aspirin" "S9"].
Proof.
  pose proof (@name_resolver_histories_only Example.codes_from_item Example.repo
                Example.payload) as (Hcur & _ & _ & Hnames & _ & Hhist).
  pose proof (@name_resolver_histories_only Example.codes_from_item Example.repo
                (mkDrugPayload [] [Example.by_subs "aspirin" "S9"]))
    as (_ & _ & _ & _ & Hcoded & _).
  split_and!.
  - apply (proj1 (Hhist 0%nat (Example.by_name "aspirin") eq_refl) "aspirin" "S1");
      [reflexivity|reflexivity|discriminate|reflexivity].
  - apply (proj2 (Hhist 1%nat (Example.by_name "unknown") eq_refl)).
    intros n [= <-]. reflexivity.
  - exact Hcur.
  - apply Hnames. exists (Example.by_name "aspirin").
    split_and!; [left|reflexivity|reflexivity|discriminate].
  - apply Hcoded. intros it n Hit Hcodes.
    apply list_elem_of_singleton in Hit as ->. discriminate Hcodes.
Defined.

(** *** Witnesses *)

(** Page 2 of size 3 over the four rows of the example. *)
Lemma pagination_slice_witness :
  1 ≤ 2 ∧ 1 ≤ 3 ∧
  data (resp_data (Example.response 2 3)) = take 3 (drop 3 Example.rows) ∧
  row (pagination (resp_data (Example.response 2 3))) = 1 ∧
  total (pagination (resp_data (Example.response 2 3))) = 4.
Proof.
  pose proof (@pagination_slice Example.codes_from_item Example.enrich_item
                Example.fill_codes Example.uuid4 Example.repo Example.payload 2 3
                ltac:(lia) ltac:(lia)) as (Htot & _ & Hdata & _ & Hrow & _).
  split_and!; [lia|lia|exact Hdata| |]; unfold Example.response.
  - rewrite Hrow, Htot. vm_compute. reflexivity.
  - rewrite Htot. vm_compute. reflexivity.
Defined.

(** A pair with an entry whose trade-unit code is external is removed. *)
Lemma external_filter_removes_iff_witness :
  let status_map : gmap string bool := {[ "TX" := true ]} in
  let index : gmap string (list DrugItem) :=
    {[ "A" := [Example.by_name "aspirin"]; "D" := [Example.by_tpu "import" "TX"] ]} in
  ("A", "D") ∈ [("A", "D")] ∧
  ("A", "D") ∉ filter_pairs status_map index [("A", "D")].
Proof.
  intros status_map index.
  assert (Hin : ("A", "D") ∈ [("A", "D")]) by left.
  split; [exact Hin|].
  apply (proj1 (external_filter_removes_iff status_map index [("A", "D")] "A" "D" Hin)).
  exists (Example.by_tpu "import" "TX"), "TX".
  split_and!; [right; left|reflexivity|discriminate|reflexivity].
Defined.

(** A record stored as (B, A) is found for the pair (A, B). *)
Lemma record_lookup_either_ordering_witness :
  lookup_record (build_pair_to_data [Example.interaction "B" "A"]) "A" "B"
  = Some (Example.interaction "B" "A").
Proof.
  pose proof (record_lookup_either_ordering [Example.interaction "B" "A"] "A" "B")
    as (_ & _ & Hsame & _).
  apply Hsame.
  - left.
  - right. reflexivity.
  - intros r' Hr' _. by apply list_elem_of_singleton in Hr'.
Defined.

(** The code "S9" has no detail record, so "S2" wins with its one substance
    and the codes of "T3" are not added. *)
Lemma substance_index_first_winning_code_witness :
  winning_sids (query_details (DrugRepository := Example.repo) []) ["S9"; "S2"; "T3"]
  = ["B"].
Proof.
  pose proof (@substance_index_first_winning_code Example.codes_from_item
                (query_details (DrugRepository := Example.repo) []) [] [])
    as (_ & _ & Hfirst & _).
  apply (Hfirst ["S9"; "S2"; "T3"] 1%nat "S2" (mkDetailRecord ["B"] []));
    [reflexivity|reflexivity|discriminate|].
  intros [|j] c' Hj Hc'; [|lia].
  injection Hc' as <-. intros Hs. exact Hs.
Defined.

(** The pair of A and B is listed once, smaller identifier first. *)
Lemma candidate_pairs_are_combinations_witness :
  let index :=
    build_subs_to_items Example.codes_from_item
      (query_details (DrugRepository := Example.repo) [])
      (drug_currents Example.resolved) (drug_histories Example.resolved) in
  ("A", "B") ∈ generate_pairs index ∧ ("B", "A") ∉ generate_pairs index.
Proof.
  intros index.
  pose proof (@candidate_pairs_are_combinations Example.codes_from_item
                (query_details (DrugRepository := Example.repo) [])
                (drug_currents Example.resolved) (drug_histories Example.resolved))
    as (Hiff & _ & _ & _ & Hone & _).
  assert (Hin : ("A", "B") ∈ generate_pairs index) by (vm_compute; left).
  split; [exact Hin|]. by apply Hone.
Defined.

(** The example request with both lists reordered. *)
Lemma pairs_order_independent_witness :
  pairs_of Example.codes_from_item Example.enrich_item Example.payload
  = pairs_of Example.codes_from_item Example.enrich_item
      {| drug_currents := [ Example.by_subs "warfarin" "S2"; Example.by_name "aspirin";
                            Example.by_tpu "combo" "T3" ];
         drug_histories := [ Example.by_name "aspirin"; Example.by_tpu "import" "TX";
                             Example.by_name "unknown" ] |}.
Proof.
  apply (@pairs_order_independent Example.codes_from_item Example.enrich_item
           Example.repo).
  - apply perm_swap.
  - apply perm_skip, perm_swap.
  - reflexivity.
  - reflexivity.
Defined.

(** The rows of the example are three segments, one per filtered pair. *)
Lemma assembled_rows_cross_join_witness :
  ∃ segments : list (list ContrastItem),
    Example.rows = concat segments ∧ length segments = 3%nat.
Proof.
  pose proof (@assembled_rows_cross_join Example.codes_from_item Example.enrich_item
                Example.fill_codes Example.uuid4 Example.repo Example.payload)
    as ((segments & Hrows & Hsegs) & _).
  exists segments. split; [exact Hrows|].
  apply Forall2_length in Hsegs. rewrite <- Hsegs. reflexivity.
Defined.

(** The example generator never repeats a value. *)
Lemma uuid4_inj : Inj (=) (=) Example.uuid4.
Proof.
  intros j k Hjk. unfold Example.uuid4 in Hjk.
  apply (inj (String.app "uuid-")) in Hjk. by apply (inj pretty) in Hjk.
Qed.

(** The four rows of the example have four different [ref_id]s. *)
Lemma ref_ids_distinct_witness :
  Inj (=) (=) Example.uuid4 ∧ NoDup (ref_id <$> Example.rows).
Proof.
  split; [exact uuid4_inj|].
  apply (@ref_ids_distinct Example.codes_from_item Example.enrich_item
           Example.fill_codes Example.uuid4 Example.repo Example.payload).
  exact uuid4_inj.
Defined.

(** *** Further runs on the example *)

(** The coded historical entry named "aspirin" is overwritten. *)
Lemma resolver_sets_every_named_history_witness :
  resolve_histories Example.codes_from_item
    [ Example.by_name "aspirin"; Example.by_subs "aspirin" "S9" ] !! 1%nat
  = Some (set_subs_code "S1" (Example.by_subs "aspirin" "S9")).
Proof.
  apply (@resolver_sets_every_named_history Example.codes_from_item Example.repo
           [ Example.by_name "aspirin"; Example.by_subs "aspirin" "S9" ]
           1%nat (Example.by_subs "aspirin" "S9") "aspirin" "S1");
    [discriminate|reflexivity|reflexivity|reflexivity].
Defined.

(** The resolved historical "aspirin" keeps its name and has the store's code. *)
Lemma resolver_changes_only_subs_code_witness :
  ∃ it, drug_histories Example.payload !! 0%nat = Some it ∧
        name (set_subs_code "S1" (Example.by_name "aspirin")) = name it.
Proof.
  pose proof (@resolver_changes_only_subs_code Example.codes_from_item Example.repo
                (drug_histories Example.payload)) as [_ Hkeep].
  destruct (Hkeep 0%nat (set_subs_code "S1" (Example.by_name "aspirin")) eq_refl)
    as (it & Hit & Hname & _).
  by exists it.
Defined.

(** With no code flagged, the filter keeps the pair of A and D. *)
Lemma external_filter_keeps_order_witness :
  filter_pairs (∅ : gmap string bool)
    ({[ "D" := [Example.by_tpu "import" "TX"] ]} : gmap string (list DrugItem))
    [("A", "D")]
  = [("A", "D")].
Proof.
  apply (external_filter_keeps_order ∅
           ({[ "D" := [Example.by_tpu "import" "TX"] ]}) [("A", "D")]).
  intros t. by rewrite lookup_empty.
Defined.

(** The external entry first or last: the same verdict. *)
Lemma external_check_order_insensitive_witness :
  any_external {[ "TX" := true ]}
    [ Example.by_tpu "import" "TX"; Example.by_name "aspirin" ]
  = any_external {[ "TX" := true ]}
    [ Example.by_name "aspirin"; Example.by_tpu "import" "TX" ].
Proof.
  apply external_check_order_insensitive. apply perm_swap.
Defined.

(** "import" is external and is on neither side of the pair of A and B. *)
Lemma external_entry_in_no_filtered_pair_witness :
  (Example.by_tpu "import" "TX" ∉
     default [] (subs_to_items_of Example.codes_from_item Example.enrich_item
                   Example.payload !! "A")) ∧
  (Example.by_tpu "import" "TX" ∉
     default [] (subs_to_items_of Example.codes_from_item Example.enrich_item
                   Example.payload !! "B")).
Proof.
  apply (@external_entry_in_no_filtered_pair Example.codes_from_item
           Example.enrich_item Example.repo Example.payload
           (Example.by_tpu "import" "TX") "TX" ("A", "B"));
    [reflexivity|discriminate|reflexivity|].
  vm_compute. left.
Defined.

(** A request with one coded entry has one substance and no row. *)
Lemma no_rows_below_two_substances_witness :
  rows_of Example.codes_from_item Example.enrich_item Example.fill_codes
    Example.uuid4 (mkDrugPayload [Example.by_subs "warfarin" "S2"] [])
  = [].
Proof.
  apply (@no_rows_below_two_substances Example.codes_from_item Example.enrich_item
           Example.fill_codes Example.uuid4 Example.repo
           (mkDrugPayload [Example.by_subs "warfarin" "S2"] []) 1 10).
  vm_compute. lia.
Defined.

(** Two records for A and B: the second one is kept. *)
Lemma later_record_replaces_earlier_witness :
  build_pair_to_data [Example.interaction "A" "B"; Example.interaction_minor]
    !! ("A", "B")
  = Some Example.interaction_minor.
Proof.
  apply (later_record_replaces_earlier [Example.interaction "A" "B"] []
           Example.interaction_minor).
  intros r' Hr'. by apply elem_of_nil in Hr'.
Defined.

(** Both orderings stored: asking for (B, A) returns the one keyed (B, A). *)
Lemma lookup_prefers_direct_ordering_witness :
  ∃ r', lookup_record
          (build_pair_to_data [Example.interaction "B" "A"; Example.interaction "A" "B"])
          "B" "A" = Some r' ∧
        record_key r' = ("B", "A").
Proof.
  destruct (lookup_prefers_direct_ordering
              [Example.interaction "B" "A"; Example.interaction "A" "B"]
              "B" "A" (Example.interaction "B" "A")) as (r' & Hl & Hk & _);
    [left|reflexivity|].
  by exists r'.
Defined.

(** The first row of the example comes from a filtered pair and a record. *)
Lemma every_row_traces_back_witness :
  Example.first_row ∈ Example.rows ∧
  ∃ p rec,
    p ∈ filtered_pairs_of Example.codes_from_item Example.enrich_item Example.payload ∧
    keyed_by p.1 p.2 rec.
Proof.
  assert (Hin : Example.first_row ∈ Example.rows) by (vm_compute; left).
  split; [exact Hin|].
  destruct (@every_row_traces_back Example.codes_from_item Example.enrich_item
              Example.fill_codes Example.uuid4 Example.repo Example.payload
              Example.first_row Hin) as (p & rec & _ & _ & Hp & _ & Hk & _).
  by exists p, rec.
Defined.

(** "combo" is indexed under A and under C and is joined with itself. *)
Lemma every_combination_has_a_row_witness :
  ∃ r, r ∈ Example.rows ∧
       row_from Example.fill_codes (Example.interaction "A" "C")
         (Example.by_tpu "combo" "T3") (Example.by_tpu "combo" "T3") r.
Proof.
  apply (@every_combination_has_a_row Example.codes_from_item Example.enrich_item
           Example.fill_codes Example.uuid4 Example.repo Example.payload
           ("A", "C") (Example.interaction "A" "C")).
  - vm_compute. right. left.
  - vm_compute. reflexivity.
  - vm_compute. left.
  - vm_compute. left.
Defined.

(** The example request against a store without records. *)
Lemma no_records_no_rows_witness :
  rows_of (repo := Example.repo_without_records) Example.codes_from_item
    Example.enrich_item Example.fill_codes Example.uuid4 Example.payload
  = [].
Proof.
  apply (@no_records_no_rows Example.codes_from_item Example.enrich_item
           Example.fill_codes Example.uuid4 Example.repo_without_records
           Example.payload).
  reflexivity.
Defined.

(** Page -5 of size 3 returns at most 3 rows. *)
Lemma page_is_a_window_witness :
  row (pagination (paginate Example.rows (-5) 3)) ≤ 3.
Proof.
  pose proof (page_is_a_window Example.rows (-5) 3) as (_ & _ & _ & _ & Hle & _).
  apply Hle. lia.
Defined.

(** Page 0 of size 10 is empty. *)
Lemma page_zero_or_size_zero_is_empty_witness :
  data (paginate Example.rows 0 10) = [].
Proof.
  apply (page_zero_or_size_zero_is_empty Example.rows 0 10). left. lia.
Defined.

(** Page -1 of size 2 over four rows is the first two rows. *)
Lemma negative_page_counts_from_end_witness :
  data (paginate Example.rows (-1) 2) = take 2 (drop 0 Example.rows).
Proof.
  apply (negative_page_counts_from_end Example.rows (-1) 2); [lia|lia|].
  vm_compute. discriminate.
Defined.

(** Page 1 of size -1 over four rows is the first three rows. *)
Lemma negative_size_drops_tail_witness :
  data (paginate Example.rows 1 (-1)) = take 3 Example.rows.
Proof.
  apply (negative_size_drops_tail Example.rows (-1)). lia.
Defined.

(** Two pages of size 3 cover the four rows of the example. *)
Lemma pages_concatenate_witness :
  data (paginate Example.rows 1 3) ++ data (paginate Example.rows 2 3)
  = Example.rows.
Proof.
  pose proof (proj2 (pages_concatenate Example.rows 3 2 ltac:(lia))) as Hall.
  cbn [seq fmap list_fmap concat] in Hall. rewrite app_nil_r in Hall.
  apply Hall. vm_compute. discriminate.
Defined.


(** The two operations do raise when their guard is not there. *)
Example getitem_missing_key_raises :
  getitem ({[ "aspirin" := "S1" ]} : gmap string string) "unknown" = Raises KeyError.
Proof. reflexivity. Qed.

Example unpack2_wrong_length_raises :
  unpack2 ["A"; "B"; "C"] = Raises ValueError.
Proof. reflexivity. Qed.
